(** * covid_undercount: the current-to-peak pipeline of
    [data_integrity_curr_vs_prior_peak_chart.ipynb]

    A shallow embedding of the notebook's analytic cells (the
    [counties_df] cell, the [daily_cases] cell, the recalibration cell,
    [safe_div], [add_sma_and_ratio] and the cell that calls it)
    together with the pandas operations they call, the properties of the
    pipeline that the specification states, and further properties of
    the cells.

    Modelling conventions.
    - A float64 cell is an exact rational or NaN ([cell]); rounding is
      not modelled.
    - A timestamp is the integer [yyyymmdd] of its calendar day, an
      encoding that preserves the order of dates; the notebook only
      compares dates.  A missing date (NaT) is [None].
    - A [DataFrame] has the default positional index of [read_csv]; the
      key column [fips], the [date] column, and a string-keyed map of
      float columns.  The [county] and [state] columns are only read by
      the cell that builds the global [counties_df], which is passed to
      [add_sma_and_ratio] as the explicit argument [counties_FIPS]; a
      [csv_line] carries them for that cell.
    - A [Series] carries its index labels, so that filtering,
      concatenation and index-aligned assignment are the ones pandas
      performs. *)

From Stdlib Require Import ZArith QArith Qcanon.
From stdpp Require Import gmap strings list sorting.


(** ** Values *)

(** A float64 entry of a column. *)
Inductive cell : Type :=
  | Num (q : Qc)
  | NaN.

(** The value of a division [x / y]: finite, NaN, or an infinity. *)
Inductive ratio : Type :=
  | RNum (q : Qc)
  | RNaN
  | RInf (negative : bool).

Inductive exn : Type :=
  | KeyError (column : string)
  | ValueError.

Inductive result (A : Type) : Type :=
  | Ok (a : A)
  | Raise (e : exn).
Arguments Ok {A} a.
Arguments Raise {A} e.

(** Sequencing of fallible steps: [x ← r; k] stops at the first raise. *)
#[global] Instance result_bind : MBind result := λ A B k r,
  match r with
  | Ok a => k a
  | Raise e => Raise e
  end.

Definition Qc_of_Z (z : Z) : Qc := Q2Qc (inject_Z z).
Definition Qc_of_nat (n : nat) : Qc := Qc_of_Z (Z.of_nat n).

Definition Qc_leb (x y : Qc) : bool :=
  match Qccompare x y with
  | Gt => false
  | _ => true
  end.

Definition Qc_max (x y : Qc) : Qc := if Qc_leb x y then y else x.

Definition Qc_sum (qs : list Qc) : Qc := foldr Qcplus (Q2Qc 0) qs.

(** The non-NaN entries, in order: what a [skipna=True] reduction sees. *)
Definition defined (vs : list cell) : list Qc :=
  omap (λ v, match v with Num q => Some q | NaN => None end) vs.

(** ** Timestamps and keys *)

Abbreviation timestamp := Z (only parsing).

(** ['2020-06-01'], ['2020-10-01'] and ['2021-02-06']. *)
Definition recalibration_date : timestamp := 20200601%Z.
Definition D1 : timestamp := 20201001%Z.
Definition D2 : timestamp := 20210206%Z.

(** [date < d]; a comparison with NaT is false. *)
Definition ts_lt (t : option timestamp) (d : timestamp) : bool :=
  match t with
  | Some t => bool_decide (t < d)%Z
  | None => false
  end.

(** [date > d]. *)
Definition ts_gt (t : option timestamp) (d : timestamp) : bool :=
  match t with
  | Some t => bool_decide (d < t)%Z
  | None => false
  end.

(** [fips == fips_] on an object column: a missing key (NaN) equals
    nothing, itself included. *)
Definition key_eqb (a b : option string) : bool :=
  match a, b with
  | Some x, Some y => bool_decide (x = y)
  | _, _ => false
  end.

(** ** Series and frames *)

Definition Series : Type := list (nat * cell).

Record DataFrame : Type := mkDataFrame {
  fips : list (option string);
  date : list (option timestamp);
  columns : gmap string (list cell)
}.

Definition nrows (df : DataFrame) : nat := length (fips df).

(** [df[c]] *)
Definition getitem (df : DataFrame) (c : string) : result (list cell) :=
  match columns df !! c with
  | Some col => Ok col
  | None => Raise (KeyError c)
  end.

(** Label lookup in a series; a label that is absent reads NaN. *)
Fixpoint at_label (s : Series) (i : nat) : cell :=
  match s with
  | [] => NaN
  | (j, v) :: s' => if bool_decide (j = i) then v else at_label s' i
  end.

(** Alignment of a series to the positional index [0 .. n-1]. *)
Definition reindex (n : nat) (s : Series) : list cell :=
  at_label s <$> seq 0 n.

(** [df[c] = values] for an array of values (no alignment). *)
Definition setitem_values (df : DataFrame) (c : string) (vs : list cell)
  : DataFrame :=
  mkDataFrame (fips df) (date df) (<[c := vs]> (columns df)).

(** [df[c] = s] for a series: the values are aligned on the index. *)
Definition setitem (df : DataFrame) (c : string) (s : Series) : DataFrame :=
  setitem_values df c (reindex (nrows df) s).

(** Boolean indexing [col[mask]]: the selected entries keep their labels. *)
Fixpoint loc_from (i : nat) (mask : list bool) (col : list cell) : Series :=
  match mask, col with
  | b :: mask', v :: col' =>
      if b then (i, v) :: loc_from (S i) mask' col'
      else loc_from (S i) mask' col'
  | _, _ => []
  end.

Definition loc (mask : list bool) (col : list cell) : Series :=
  loc_from 0 mask col.

(** [mask1 & mask2] *)
Definition mask_and (m1 m2 : list bool) : list bool := zip_with andb m1 m2.

Definition fips_eq (df : DataFrame) (fips_ : option string) : list bool :=
  (λ f, key_eqb f fips_) <$> fips df.

Definition date_lt (df : DataFrame) (d : timestamp) : list bool :=
  (λ t, ts_lt t d) <$> date df.

Definition date_gt (df : DataFrame) (d : timestamp) : list bool :=
  (λ t, ts_gt t d) <$> date df.

(** [Series.unique()]: the distinct values in order of first appearance;
    a missing key appears once, as [None]. *)
Definition unique {A : Type} `{EqDecision A} (l : list A) : list A :=
  reverse (remove_dups (reverse l)).

(** [s[-n:]] *)
Definition last_n {A : Type} (n : nat) (s : list A) : list A :=
  drop (length s - n) s.

(** ** Reductions and window functions *)

(** [Series.max()] with [skipna=True]. *)
Definition max_skipna (vs : list cell) : cell :=
  match defined vs with
  | [] => NaN
  | q :: qs => Num (foldl Qc_max q qs)
  end.

(** [Series.mean()] with [skipna=True]. *)
Definition mean_skipna (vs : list cell) : cell :=
  match defined vs with
  | [] => NaN
  | qs => Num (Qc_sum qs / Qc_of_nat (length qs))
  end.

(** The trailing window of at most [w] observations that ends at
    position [i]. *)
Definition window (w i : nat) (vs : list cell) : list cell :=
  last_n w (take (S i) vs).

(** [.rolling(window=w).mean()]: [min_periods] defaults to [w], so a
    window with fewer than [w] non-NaN observations gives NaN. *)
Definition rolling_mean (w : nat) (vs : list cell) : list cell :=
  (λ i, let win := window w i vs in
        if bool_decide (w ≤ length (defined win))
        then mean_skipna win else NaN) <$> seq 0 (length vs).

Definition cell_sub (x y : cell) : cell :=
  match x, y with
  | Num a, Num b => Num (a - b)
  | _, _ => NaN
  end.

(** [.diff()]: each entry minus the previous one; the first is NaN. *)
Definition diff (vs : list cell) : list cell :=
  zip_with cell_sub vs (NaN :: vs).

(** [.fillna(0)] *)
Definition fillna0 (vs : list cell) : list cell :=
  (λ v, match v with NaN => Num (Q2Qc 0) | _ => v end) <$> vs.

(** A function on values applied to a series, labels kept. *)
Definition on_values (f : list cell → list cell) (s : Series) : Series :=
  zip s.*1 (f s.*2).

(** ** The notebook's cells *)

(** [pd.read_csv(...)]: one row per line of the NYT county file. *)
Record csv_row : Type := mkRow {
  row_date : option timestamp;
  row_fips : option string;
  row_cases : cell;
  row_deaths : cell
}.

Definition read_csv (rows : list csv_row) : DataFrame :=
  mkDataFrame (row_fips <$> rows) (row_date <$> rows)
    (<["cases" := row_cases <$> rows]>
       (<["deaths" := row_deaths <$> rows]> ∅)).

(** [df.groupby('fips')[c]] followed by a per-group transformation: the
    result carries the labels of the rows of each group.  A row whose
    key is missing belongs to no group (the mask of [None] is empty).
    pandas visits the groups in key order; the result is aligned on the
    index afterwards, so the order of the groups is immaterial. *)
Definition groupby_transform (df : DataFrame) (col : list cell)
    (f : list cell → list cell) : Series :=
  flat_map (λ k, on_values f (loc (fips_eq df k) col)) (unique (fips df)).

(** [covid_df['daily_cases'] =
      covid_df.groupby('fips')['cases'].diff().fillna(0)] *)
Definition daily_cases_cell (covid_df : DataFrame) : result DataFrame :=
  cases ← getitem covid_df "cases";
  Ok (setitem_values covid_df "daily_cases"
        (fillna0 (reindex (nrows covid_df)
                    (groupby_transform covid_df cases diff)))).

(** [col * a] *)
Definition scale (a : Qc) (col : list cell) : list cell :=
  (λ v, match v with Num q => Num (q * a) | NaN => NaN end) <$> col.

(** [np.where(cond, x, y)] *)
Definition np_where (cond : list bool) (x y : list cell) : list cell :=
  zip_with (λ b xy, if b : bool then xy.1 else xy.2) cond (zip x y).

(** [covid_df[target] = np.where(covid_df['date'] < '2020-06-01',
                                 covid_df[source] * a, covid_df[source] * b)] *)
Definition recalibrate (df : DataFrame) (target source : string) (a b : Qc)
  : result DataFrame :=
  x ← getitem df source;
  y ← getitem df source;
  Ok (setitem_values df target
        (np_where (date_lt df recalibration_date) (scale a x) (scale b y))).

(** The recalibration cell: its three assignments read the column
    ['cases_new']. *)
Definition recalibration_cell (covid_df : DataFrame) : result DataFrame :=
  df1 ← recalibrate covid_df "daily_cases_low" "cases_new"
          (Qc_of_Z 4) (Q2Qc (21 # 10));
  df2 ← recalibrate df1 "daily_cases_med" "cases_new"
          (Q2Qc (55 # 10)) (Q2Qc (21 # 10));
  recalibrate df2 "daily_cases_high" "cases_new"
    (Qc_of_Z 7) (Q2Qc (21 # 10)).

(** Which [/] divides the two reductions.  A Python [float] raises
    [ZeroDivisionError] on a zero divisor; a [numpy.float64] warns and
    returns an infinity or NaN. *)
Inductive float_impl : Type :=
  | PythonFloat
  | NumpyFloat64.

Definition is_zero (q : Qc) : bool := bool_decide (q = Q2Qc 0).

(** [x / y]; [None] stands for a raised [ZeroDivisionError]. *)
Definition truediv (impl : float_impl) (x y : cell) : option ratio :=
  match y with
  | NaN => Some RNaN
  | Num p =>
      if is_zero p then
        match impl with
        | PythonFloat => None
        | NumpyFloat64 =>
            match x with
            | NaN => Some RNaN
            | Num a =>
                if is_zero a then Some RNaN
                else Some (RInf (negb (Qc_leb (Q2Qc 0) a)))
            end
        end
      else
        match x with
        | NaN => Some RNaN
        | Num a => Some (RNum (a / p))
        end
  end.

Definition safe_div (impl : float_impl) (x y : cell) : ratio :=
  match truediv impl x y with
  | Some r => r
  | None => RNum (Q2Qc 0)
  end.

(** The first loop of [add_sma_and_ratio] and [pd.concat(county_SMA)]. *)
Definition county_SMA (cvd_df : DataFrame) (col : list cell) : Series :=
  flat_map (λ fips_, on_values (rolling_mean 7) (loc (fips_eq cvd_df fips_) col))
           (unique (fips cvd_df)).

(** [cvd_df[(cvd_df['fips']==fips_) & (cvd_df['date'] < '2020-10-01')]
      [case_column].max()] *)
Definition county_prev_peak (cvd_df : DataFrame) (col : list cell)
    (fips_ : string) : cell :=
  max_skipna
    (loc (mask_and (fips_eq cvd_df (Some fips_)) (date_lt cvd_df D1)) col).*2.

(** [cvd_df[(cvd_df['fips']==fips_) & (cvd_df['date'] > '2020-10-01') &
            (cvd_df['date'] < '2021-02-06')][case_column][-7:].mean()] *)
Definition county_curr_ave (cvd_df : DataFrame) (col : list cell)
    (fips_ : string) : cell :=
  mean_skipna
    (last_n 7
       (loc (mask_and (mask_and (fips_eq cvd_df (Some fips_))
                                (date_gt cvd_df D1))
                      (date_lt cvd_df D2)) col)).*2.

(** [add_sma_and_ratio(cvd_df, case_column)].  The frame is updated in
    place by the source, so the updated frame is returned next to the
    list of ratios.  [counties_FIPS] is the global
    [counties_df['FIPS'].unique()].  [pd.concat] raises [ValueError] on
    an empty list, which happens when the frame has no row. *)
Definition add_sma_and_ratio (impl : float_impl) (counties_FIPS : list string)
    (cvd_df : DataFrame) (case_column : string)
  : result (DataFrame * list ratio) :=
  match unique (fips cvd_df) with
  | [] => Raise ValueError
  | _ =>
      col ← getitem cvd_df case_column;
      let cvd_df' := setitem cvd_df case_column (county_SMA cvd_df col) in
      sma ← getitem cvd_df' case_column;
      Ok (cvd_df',
          (λ fips_, safe_div impl (county_curr_ave cvd_df' sma fips_)
                                  (county_prev_peak cvd_df' sma fips_))
            <$> counties_FIPS)
  end.

(** ** Sample tables *)

Definition obs (d : Z) (k : string) (n : Z) : csv_row :=
  mkRow (Some d) (Some k) (Num (Qc_of_Z n)) (Num (Q2Qc 0)).

(** Two counties, rows interleaved day by day as in the NYT file, nine
    days before the first cutoff and nine days inside the comparison
    window. *)
Definition two_counties : list csv_row :=
  flat_map (λ d, [obs (20200900 + d) "01001" (d * d);
                  obs (20200900 + d) "53033" (10 * d)])
           [1; 2; 3; 4; 5; 6; 7; 8; 9]%Z ++
  flat_map (λ d, [obs (20210100 + d) "01001" (100 + 3 * d);
                  obs (20210100 + d) "53033" (90 + d)])
           [1; 2; 3; 4; 5; 6; 7; 8; 9]%Z.

(** A county first reported after the first cutoff. *)
Definition late_county : list csv_row :=
  (λ d, obs (20201100 + d) "02013" (5 * d)) <$> [1; 2; 3; 4; 5; 6; 7; 8; 9]%Z.

Definition frame_of (rows : list csv_row) : DataFrame :=
  match daily_cases_cell (read_csv rows) with
  | Ok df => df
  | Raise _ => read_csv rows
  end.

(** ** Auxiliary notions used in the statements *)

(** The labels that a mask selects, counted from [i]. *)
Fixpoint positions_from (i : nat) (mask : list bool) : list nat :=
  match mask with
  | [] => []
  | b :: mask' =>
      if b then i :: positions_from (S i) mask' else positions_from (S i) mask'
  end.

Definition positions (mask : list bool) : list nat := positions_from 0 mask.

(** The rows of a region, as a mask on a key column. *)
Definition key_mask (keys : list (option string)) (u : option string)
  : list bool :=
  (λ f, key_eqb f u) <$> keys.

(** The values of a column on the rows of region [k], in table order:
    the region's own series. *)
Definition region_series (df : DataFrame) (col : list cell) (k : string)
  : list cell :=
  (loc (fips_eq df (Some k)) col).*2.

(** The per-group transformation of a column, over a list of group keys:
    the common shape of [groupby_transform] and [county_SMA]. *)
Definition grouped (f : list cell → list cell) (keys : list (option string))
    (col : list cell) (us : list (option string)) : Series :=
  flat_map (λ u, on_values f (loc (key_mask keys u) col)) us.

(** The column that [add_sma_and_ratio] stores back under
    [case_column]: the concatenated moving averages aligned on the index. *)
Definition smoothed (df : DataFrame) (col : list cell) : list cell :=
  reindex (nrows df) (county_SMA df col).

(** The first difference of a sequence of counts, with first value 0. *)
Definition first_difference (cs : list Qc) : list Qc :=
  match cs with
  | [] => []
  | c0 :: cs' => Q2Qc 0 :: zip_with Qcminus cs' cs
  end.

(** The preparation cells in notebook order: [daily_cases], then the
    recalibration cell. *)
Definition prepare (rows : list csv_row) : result DataFrame :=
  covid_df ← daily_cases_cell (read_csv rows);
  recalibration_cell covid_df.

(** A table with a row whose key is missing and a row whose date is
    missing. *)
Definition incomplete_rows : list csv_row :=
  [obs 20200901 "01001" 4;
   mkRow (Some 20200901%Z) None (Num (Qc_of_Z 9)) NaN;
   mkRow None (Some "01001") (Num (Qc_of_Z 6)) NaN;
   obs 20200903 "01001" 7].

(** Row [i] belongs to region [k], is dated [t] and holds [v] in the
    column [col]. *)
Definition row_of (df : DataFrame) (col : list cell) (k : string) (i : nat)
    (t : timestamp) (v : cell) : Prop :=
  fips df !! i = Some (Some k) ∧ date df !! i = Some (Some t) ∧
  col !! i = Some v.

(** *** The recent average as the specification words it *)

(** The observations of region [k] that carry a date, in table order,
    as (date, value). *)
Definition region_observations (df : DataFrame) (col : list cell)
    (k : string) : list (Z * cell) :=
  omap (λ r, match r.1.1, r.1.2 with
             | Some k', Some t =>
                 if bool_decide (k' = k) then Some (t, r.2) else None
             | _, _ => None
             end)
       (zip (zip (fips df) (date df)) col).

Fixpoint insert_by_date (x : Z * cell) (l : list (Z * cell))
  : list (Z * cell) :=
  match l with
  | [] => [x]
  | y :: l' =>
      if bool_decide (x.1 ≤ y.1)%Z then x :: l else y :: insert_by_date x l'
  end.

(** Chronological order, by a stable insertion sort. *)
Definition sort_by_date (l : list (Z * cell)) : list (Z * cell) :=
  foldr insert_by_date [] l.

(** The mean of the defined values among the last seven entries of the
    date-sorted subsequence whose dates lie strictly between the two
    cutoffs; undefined when there is none. *)
Definition recent_average_spec (df : DataFrame) (col : list cell)
    (k : string) : cell :=
  let in_window :=
    filter (λ x, D1 < x.1 < D2)%Z (region_observations df col k) in
  match defined (last_n 7 (sort_by_date in_window)).*2 with
  | [] => NaN
  | qs => Num (Qc_sum qs / Qc_of_nat (length qs))
  end.

(** *** Sample values used below *)

(** The [daily_cases] column of [two_counties]. *)
Definition two_counties_daily : list cell :=
  (λ z, Num (Qc_of_Z z)) <$>
    [0; 0; 3; 10; 5; 10; 7; 10; 9; 10; 11; 10; 13; 10; 15; 10; 17; 10;
     22; 1; 3; 1; 3; 1; 3; 1; 3; 1; 3; 1; 3; 1; 3; 1; 3; 1]%Z.

(** The incremental series of county 53033 in [two_counties]. *)
Definition county_53033_daily : list Qc :=
  Qc_of_Z <$> [0; 10; 10; 10; 10; 10; 10; 10; 10;
               1; 1; 1; 1; 1; 1; 1; 1; 1]%Z.

(** The cumulative counts of county 01001 in [two_counties]. *)
Definition county_01001_cases : list Qc :=
  Qc_of_Z <$> [1; 4; 9; 16; 25; 36; 49; 64; 81;
               103; 106; 109; 112; 115; 118; 121; 124; 127]%Z.

(** One county observed on the day before, on, and after the first
    cutoff. *)
Definition boundary_rows : list csv_row :=
  [obs 20200930 "01001" 1; obs 20201001 "01001" 5; obs 20201002 "01001" 7].

(** ** Notions used in the further properties *)

(** ** The [counties_df] cell and the cell that fills it *)

(** A line of the county file: the columns of [csv_row] and the two name
    columns, which only the [counties_df] cell reads. *)
Record csv_line : Type := mkLine {
  line_row : csv_row;
  line_county : option string;
  line_state : option string
}.

(** The key of a line in [groupby(['fips', 'county', 'state'])]: a line
    with a missing key column is in no group. *)
Definition group_key (l : csv_line) : option (string * string * string) :=
  match row_fips (line_row l), line_county l, line_state l with
  | Some f, Some c, Some s => Some (f, c, s)
  | _, _, _ => None
  end.

(** The order of the group keys: lexicographic on the three strings. *)
Definition key_compare (x y : string * string * string) : comparison :=
  match String.compare x.1.1 y.1.1 with
  | Eq =>
      match String.compare x.1.2 y.1.2 with
      | Eq => String.compare x.2 y.2
      | o => o
      end
  | o => o
  end.

Definition key_le (x y : string * string * string) : Prop :=
  key_compare x y ≠ Gt.

#[global] Instance key_le_dec (x y : string * string * string) :
  Decision (key_le x y).
Proof. unfold key_le. apply _. Defined.

(** [covid_df.groupby(['fips', 'county', 'state']).agg(FIPS=('fips',
    'max'), COUNTY=('county', 'max'), ST=('state', 'max')).reset_index()
    [['FIPS', 'COUNTY', 'ST']]]: one row per group, in key order; the
    maximum of a key column over a group is the group's key. *)
Definition counties_df_cell (lines : list csv_line)
  : list (string * string * string) :=
  merge_sort key_le (remove_dups (omap group_key lines)).

(** [counties_df]: the three key columns and the ratio columns added by
    the ratio cell. *)
Record CountiesFrame : Type := mkCountiesFrame {
  FIPS : list string;
  COUNTY : list string;
  ST : list string;
  ratio_columns : gmap string (list ratio)
}.

Definition counties_frame (keys : list (string * string * string))
  : CountiesFrame :=
  mkCountiesFrame ((λ x, x.1.1) <$> keys) ((λ x, x.1.2) <$> keys)
                  ((λ x, x.2) <$> keys) ∅.

(** [counties_df[name] = values] for a Python list: the list must have
    one value per row. *)
Definition assign_list (counties_df : CountiesFrame) (name : string)
    (values : list ratio) : result CountiesFrame :=
  if decide (length values = length (FIPS counties_df))
  then Ok (mkCountiesFrame (FIPS counties_df) (COUNTY counties_df)
             (ST counties_df) (<[name := values]> (ratio_columns counties_df)))
  else Raise ValueError.

(** One line of the ratio cell:
    [counties_df[name] = add_sma_and_ratio(covid_df, case_column)].  The
    call reads the global [counties_df] and updates [covid_df]. *)
Definition ratio_step (impl : float_impl) (name case_column : string)
    (st : DataFrame * CountiesFrame) : result (DataFrame * CountiesFrame) :=
  r ← add_sma_and_ratio impl (unique (FIPS st.2)) st.1 case_column;
  counties_df ← assign_list st.2 name r.2;
  Ok (r.1, counties_df).

(** The ratio cell, up to its [to_csv]. *)
Definition ratio_cell (impl : float_impl) (covid_df : DataFrame)
    (counties_df : CountiesFrame) : result (DataFrame * CountiesFrame) :=
  st1 ← ratio_step impl "Curr to Peak" "daily_cases" (covid_df, counties_df);
  st2 ← ratio_step impl "Curr to Peak: Low Recalibration" "daily_cases_low"
          st1;
  st3 ← ratio_step impl "Curr to Peak: Med Recalibration" "daily_cases_med"
          st2;
  ratio_step impl "Curr to Peak: High Recalibration" "daily_cases_high" st3.

(** A county reported under two names, and a line without a key. *)
Definition renamed_county : list csv_line :=
  [mkLine (obs 20200901 "02270" 3) (Some "Wade Hampton") (Some "Alaska");
   mkLine (mkRow (Some 20200901%Z) None (Num (Qc_of_Z 8)) NaN)
          (Some "Unknown") (Some "Alaska");
   mkLine (obs 20200902 "02270" 5) (Some "Kusilvak") (Some "Alaska")].

(** The ratios that [add_sma_and_ratio] returns for a column [col] of
    the frame [df], one per county of the roster. *)
Definition ratios_on (impl : float_impl) (roster : list string)
    (df : DataFrame) (col : list cell) : list ratio :=
  (λ fips_, safe_div impl (county_curr_ave df (smoothed df col) fips_)
                          (county_prev_peak df (smoothed df col) fips_))
    <$> roster.

(** *** Further sample tables *)

(** A region whose second cumulative count is missing. *)
Definition gap_rows : list csv_row :=
  [obs 20200901 "01001" 4;
   mkRow (Some 20200902%Z) (Some "01001") NaN NaN;
   obs 20200903 "01001" 9].

(** A region whose cumulative count is corrected downwards. *)
Definition corrected_rows : list csv_row :=
  [obs 20200901 "01001" 5; obs 20200902 "01001" 3; obs 20200903 "01001" 8].

(** [two_counties] with three more columns. *)
Definition four_columns : DataFrame :=
  setitem_values
    (setitem_values
       (setitem_values (frame_of two_counties) "daily_cases_low"
          (scale (Qc_of_Z 4) two_counties_daily))
       "daily_cases_med" (scale (Q2Qc (55 # 10)) two_counties_daily))
    "daily_cases_high" (scale (Qc_of_Z 7) two_counties_daily).

Definition two_counties_names : CountiesFrame :=
  counties_frame [("01001", "Autauga", "Alabama");
                  ("53033", "King", "Washington")].

(** [boundary_rows] with a column named ['cases_new']. *)
Definition with_cases_new : DataFrame :=
  setitem_values (frame_of boundary_rows) "cases_new"
    (Num ∘ Qc_of_Z <$> [0; 4; 2]%Z).

(** ** The recent average, read off the rows *)






(** The row numbers of the two counties of [two_counties]. *)
Definition rows_of_01001 : list nat :=
  [0; 2; 4; 6; 8; 10; 12; 14; 16; 18; 20; 22; 24; 26; 28; 30; 32; 34].

Definition rows_of_53033 : list nat :=
  [1; 3; 5; 7; 9; 11; 13; 15; 17; 19; 21; 23; 25; 27; 29; 31; 33; 35].


(** * Properties *)

(** ** Selection by a mask *)

Lemma unique_NoDup {A : Type} `{EqDecision A} (l : list A) : NoDup (unique l).
Proof. unfold unique. rewrite reverse_Permutation. apply NoDup_remove_dups. Qed.

Lemma elem_of_unique {A : Type} `{EqDecision A} (l : list A) (x : A) :
  x ∈ unique l ↔ x ∈ l.
Proof.
  unfold unique. by rewrite elem_of_reverse, elem_of_remove_dups, elem_of_reverse.
Qed.

Lemma unique_nil_inv {A : Type} `{EqDecision A} (l : list A) :
  unique l = [] → l = [].
Proof.
  intros Hu. destruct l as [|x l]; [done|].
  assert (x ∈ unique (x :: l)) as Hx by (apply elem_of_unique; left).
  rewrite Hu in Hx. by apply elem_of_nil in Hx.
Qed.

Lemma key_eqb_true (a b : option string) :
  key_eqb a b = true ↔ ∃ k, a = Some k ∧ b = Some k.
Proof.
  destruct a as [x|], b as [y|]; simpl; split;
    try (intros [k [? ?]]; simplify_eq); try done.
  - intros Hxy. apply bool_decide_eq_true in Hxy. subst. eauto.
  - by apply bool_decide_eq_true.
Qed.

Lemma elem_of_positions_from (mask : list bool) (i j : nat) :
  j ∈ positions_from i mask ↔ i ≤ j ∧ mask !! (j - i) = Some true.
Proof.
  revert i. induction mask as [|b mask IH]; intros i; simpl.
  - rewrite elem_of_nil. split; [done|]. by intros [_ ?].
  - assert (j ∈ positions_from (S i) mask ↔
            i ≤ j ∧ j ≠ i ∧ (b :: mask) !! (j - i) = Some true) as Htl.
    { rewrite IH. split.
      - intros [Hle Hm]. split_and!; [lia..|].
        replace (j - i) with (S (j - S i)) by lia. done.
      - intros (Hle & Hne & Hm). split; [lia|].
        replace (j - i) with (S (j - S i)) in Hm by lia. done. }
    destruct b.
    + rewrite elem_of_cons, Htl. split.
      * intros [->|(? & ? & ?)]; [|done]. split; [lia|].
        by rewrite Nat.sub_diag.
      * intros [Hle Hm]. destruct (decide (j = i)); [by left|by right].
    + rewrite Htl. split; [by intros (? & _ & ?)|].
      intros [Hle Hm]. split_and!; [done| |done].
      intros ->. by rewrite Nat.sub_diag in Hm.
Qed.

Lemma positions_from_NoDup (mask : list bool) (i : nat) :
  NoDup (positions_from i mask).
Proof.
  revert i. induction mask as [|b mask IH]; intros i; simpl; [constructor|].
  destruct b; [|done]. constructor; [|done].
  rewrite elem_of_positions_from. lia.
Qed.

Lemma loc_from_labels (mask : list bool) (col : list cell) (i : nat) :
  length mask ≤ length col → (loc_from i mask col).*1 = positions_from i mask.
Proof.
  revert col i. induction mask as [|b mask IH]; intros [|v col] i Hlen;
    simpl in *; try done; try lia.
  destruct b; simpl; rewrite IH by lia; done.
Qed.

Lemma loc_from_length (mask : list bool) (col : list cell) (i : nat) :
  length mask ≤ length col →
  length (loc_from i mask col) = length (positions_from i mask).
Proof.
  intros Hlen. by rewrite <- (loc_from_labels mask col i), length_fmap.
Qed.

(** Selecting from a column given pointwise by [g] reads [g] at the
    selected labels. *)
Lemma loc_from_tabulate (g : nat → cell) (mask : list bool) (i n : nat) :
  length mask ≤ n →
  loc_from i mask (g <$> seq i n) = (λ j, (j, g j)) <$> positions_from i mask.
Proof.
  revert i n. induction mask as [|b mask IH]; intros i [|n] Hlen;
    simpl in *; try done; try lia.
  destruct b; simpl; rewrite IH by lia; done.
Qed.

Lemma loc_from_fmap (g : cell → cell) (mask : list bool) (col : list cell)
    (i : nat) :
  loc_from i mask (g <$> col) = prod_map id g <$> loc_from i mask col.
Proof.
  revert col i. induction mask as [|b mask IH]; intros [|v col] i;
    simpl; try done.
  destruct b; simpl; by rewrite IH.
Qed.

(** An entry selected with label [j] is the entry of row [j]. *)
Lemma elem_of_loc_from (mask : list bool) (col : list cell) (i j : nat)
    (v : cell) :
  (j, v) ∈ loc_from i mask col ↔
  i ≤ j ∧ mask !! (j - i) = Some true ∧ col !! (j - i) = Some v.
Proof.
  revert col i. induction mask as [|b mask IH]; intros col i.
  { simpl. rewrite elem_of_nil. split; [done|]. by intros (_ & ? & _). }
  destruct col as [|w col].
  { simpl. rewrite elem_of_nil. split; [done|].
    intros (_ & _ & Hc). by rewrite lookup_nil in Hc. }
  assert ((j, v) ∈ loc_from (S i) mask col ↔
          i ≤ j ∧ j ≠ i ∧ (b :: mask) !! (j - i) = Some true
          ∧ (w :: col) !! (j - i) = Some v) as Htl.
  { rewrite IH. split.
    - intros (Hle & Hm & Hc). split_and!; [lia..| |];
        replace (j - i) with (S (j - S i)) by lia; done.
    - intros (Hle & Hne & Hm & Hc). split; [lia|].
      replace (j - i) with (S (j - S i)) in Hm, Hc by lia. done. }
  simpl. destruct b.
  - rewrite elem_of_cons, Htl. split.
    + intros [Heq|(? & ? & ? & ?)]; [|done]. simplify_eq.
      split; [lia|]. by rewrite Nat.sub_diag.
    + intros (Hle & Hm & Hc). destruct (decide (j = i)) as [->|]; [|by right].
      left. rewrite Nat.sub_diag in Hc. by simplify_eq/=.
  - rewrite Htl. split; [by intros (? & _ & ? & ?)|].
    intros (Hle & Hm & Hc). split_and!; [done| |done..].
    intros ->. by rewrite Nat.sub_diag in Hm.
Qed.

(** The series of a region is the column filtered on the region's key:
    the labels play no part in it. *)
Lemma loc_from_key_filter (keys : list (option string)) (col : list cell)
    (k : string) (i : nat) :
  (loc_from i (key_mask keys (Some k)) col).*2 =
  (filter (λ r, r.1 = Some k) (zip keys col)).*2.
Proof.
  revert col i. induction keys as [|f keys IH]; intros [|v col] i; try done.
  simpl. rewrite filter_cons. simpl.
  destruct (decide (f = Some k)) as [->|Hne].
  - simpl. rewrite bool_decide_eq_true_2 by done. simpl. f_equal. apply IH.
  - assert (key_eqb f (Some k) = false) as ->; [|apply IH].
    destruct f as [k'|]; [|done]. simpl.
    apply bool_decide_eq_false_2. congruence.
Qed.

Lemma region_series_filter (df : DataFrame) (col : list cell) (k : string) :
  region_series df col k =
  (filter (λ r, r.1 = Some k) (zip (fips df) col)).*2.
Proof. apply loc_from_key_filter. Qed.

(** ** Per-group transformations *)

Lemma at_label_app_l (s1 s2 : Series) (i : nat) :
  i ∈ s1.*1 → at_label (s1 ++ s2) i = at_label s1 i.
Proof.
  induction s1 as [|[j v] s1 IH]; simpl.
  - by intros ?%elem_of_nil.
  - intros Hi. case_bool_decide; [done|].
    apply IH. apply elem_of_cons in Hi as [->|]; done.
Qed.

Lemma at_label_app_r (s1 s2 : Series) (i : nat) :
  i ∉ s1.*1 → at_label (s1 ++ s2) i = at_label s2 i.
Proof.
  induction s1 as [|[j v] s1 IH]; simpl; [done|].
  intros Hi. apply not_elem_of_cons in Hi as [Hne Hi].
  case_bool_decide; [by subst|]. by apply IH.
Qed.

Lemma at_label_zip (P : list nat) (W : list cell) :
  NoDup P → length P = length W → at_label (zip P W) <$> P = W.
Proof.
  intros Hnd. revert W.
  induction Hnd as [|p P Hp Hnd IH]; intros [|w W] Hlen; simplify_eq/=; [done|].
  rewrite bool_decide_eq_true_2 by done. f_equal.
  transitivity (at_label (zip P W) <$> P); [|by apply IH].
  apply list_fmap_ext. intros i j Hj. simpl.
  rewrite bool_decide_eq_false_2; [done|].
  intros ->. apply Hp. by eapply list_elem_of_lookup_2.
Qed.

Lemma reindex_length (n : nat) (s : Series) : length (reindex n s) = n.
Proof. unfold reindex. by rewrite length_fmap, length_seq. Qed.

Lemma reindex_lookup (n : nat) (s : Series) (i : nat) :
  i < n → reindex n s !! i = Some (at_label s i).
Proof.
  intros Hi. unfold reindex. by rewrite list_lookup_fmap, lookup_seq_lt.
Qed.

Section grouped.
Context (f : list cell → list cell).
Context (Hf : ∀ vs, length (f vs) = length vs).
Context (keys : list (option string)) (col : list cell).
Context (Hlen : length col = length keys).

Lemma key_mask_length (u : option string) :
  length (key_mask keys u) = length keys.
Proof. unfold key_mask. by rewrite length_fmap. Qed.

Lemma key_mask_lookup_true (u : option string) (i : nat) :
  key_mask keys u !! i = Some true ↔
  ∃ k, u = Some k ∧ keys !! i = Some (Some k).
Proof.
  unfold key_mask. rewrite list_lookup_fmap. split.
  - destruct (keys !! i) as [a|]; simpl; [|done].
    intros [= Hk]. apply key_eqb_true in Hk as (k & -> & ->). eauto.
  - intros (k & -> & ->). simpl. by rewrite bool_decide_eq_true_2.
Qed.

Lemma group_labels (u : option string) :
  (loc (key_mask keys u) col).*1 = positions (key_mask keys u).
Proof. apply loc_from_labels. rewrite key_mask_length. lia. Qed.

Lemma on_values_labels (u : option string) :
  (on_values f (loc (key_mask keys u) col)).*1 = positions (key_mask keys u).
Proof.
  unfold on_values. rewrite fst_zip; [apply group_labels|].
  by rewrite Hf, !length_fmap.
Qed.

Lemma positions_other_group (u : option string) (k : string) (i : nat) :
  i ∈ positions (key_mask keys (Some k)) → u ≠ Some k →
  i ∉ positions (key_mask keys u).
Proof.
  unfold positions. rewrite !elem_of_positions_from, Nat.sub_0_r.
  intros [_ Hk] Hne [_ Hu].
  apply key_mask_lookup_true in Hk as (k1 & ? & Hk).
  apply key_mask_lookup_true in Hu as (k2 & ? & Hu).
  congruence.
Qed.

(** In the concatenation of the groups, the label of a row of region
    [k] is found in the group of [k]. *)
Lemma at_label_grouped (us : list (option string)) (k : string) (i : nat) :
  Some k ∈ us → i ∈ positions (key_mask keys (Some k)) →
  at_label (grouped f keys col us) i =
  at_label (on_values f (loc (key_mask keys (Some k)) col)) i.
Proof.
  intros Hk Hi. induction us as [|u us IH]; simpl.
  { by apply elem_of_nil in Hk. }
  destruct (decide (u = Some k)) as [->|Hne].
  - apply at_label_app_l. by rewrite on_values_labels.
  - rewrite at_label_app_r.
    + apply IH. apply elem_of_cons in Hk as [?|?]; [congruence|done].
    + rewrite on_values_labels. by apply positions_other_group with k.
Qed.

(** A row without a key is in no group. *)
Lemma at_label_grouped_no_key (us : list (option string)) (i : nat) :
  keys !! i = Some None → at_label (grouped f keys col us) i = NaN.
Proof.
  intros Hi. induction us as [|u us IH]; simpl; [done|].
  rewrite at_label_app_r; [done|].
  rewrite on_values_labels. unfold positions.
  rewrite elem_of_positions_from, Nat.sub_0_r. intros [_ Hu].
  apply key_mask_lookup_true in Hu as (k & _ & Hu). congruence.
Qed.

(** The aligned result, restricted to region [k], is the transformation
    of the column restricted to region [k]: no group reads a row of
    another region. *)
Lemma grouped_region (k : string) :
  (loc (key_mask keys (Some k))
       (reindex (length keys) (grouped f keys col (unique keys)))).*2 =
  f (loc (key_mask keys (Some k)) col).*2.
Proof.
  unfold loc at 1, reindex.
  rewrite loc_from_tabulate by (by rewrite key_mask_length).
  rewrite <- list_fmap_compose.
  rewrite <- (at_label_zip (positions (key_mask keys (Some k)))
                (f (loc (key_mask keys (Some k)) col).*2)).
  - apply list_fmap_ext. intros j i Hi. simpl.
    assert (i ∈ positions (key_mask keys (Some k))) as Hin
      by (by eapply list_elem_of_lookup_2).
    rewrite at_label_grouped with (k := k); [| |done].
    + unfold on_values. by rewrite group_labels.
    + apply elem_of_unique. unfold positions in Hin.
      apply elem_of_positions_from in Hin as [_ Hin].
      rewrite Nat.sub_0_r in Hin.
      apply key_mask_lookup_true in Hin as (k' & ? & Hin). simplify_eq.
      by eapply list_elem_of_lookup_2.
  - apply positions_from_NoDup.
  - by rewrite Hf, <- group_labels, !length_fmap.
Qed.
End grouped.

(** ** Running [add_sma_and_ratio] *)

Lemma getitem_Ok (df : DataFrame) (c : string) (col : list cell) :
  columns df !! c = Some col → getitem df c = Ok col.
Proof. unfold getitem. by intros ->. Qed.

(** On a frame with at least one row and with the column present, the
    call returns: the frame with the column smoothed, and one ratio per
    county of the roster. *)
Lemma add_sma_and_ratio_run (impl : float_impl) (counties_FIPS : list string)
    (df : DataFrame) (c : string) (col : list cell) :
  columns df !! c = Some col → 0 < nrows df →
  add_sma_and_ratio impl counties_FIPS df c =
  Ok (setitem_values df c (smoothed df col),
      (λ fips_,
         safe_div impl
           (county_curr_ave (setitem_values df c (smoothed df col))
                            (smoothed df col) fips_)
           (county_prev_peak (setitem_values df c (smoothed df col))
                             (smoothed df col) fips_)) <$> counties_FIPS).
Proof.
  intros Hc Hn. unfold add_sma_and_ratio.
  destruct (unique (fips df)) eqn:Hu.
  { apply unique_nil_inv in Hu. unfold nrows in Hn. rewrite Hu in Hn.
    simpl in Hn. lia. }
  rewrite (getitem_Ok _ _ _ Hc). simpl.
  unfold getitem, setitem, setitem_values. simpl.
  by rewrite lookup_insert_eq.
Qed.

(** ** Moving average of a series without NaN *)

Lemma defined_Num (qs : list Qc) : defined (Num <$> qs) = qs.
Proof. unfold defined. induction qs as [|q qs IH]; simpl; [done|]. by f_equal. Qed.

Lemma last_n_fmap {A B : Type} (g : A → B) (n : nat) (l : list A) :
  last_n n (g <$> l) = g <$> last_n n l.
Proof. unfold last_n. by rewrite fmap_drop, length_fmap. Qed.

Lemma mean_skipna_Num (qs : list Qc) :
  qs ≠ [] →
  mean_skipna (Num <$> qs) = Num (Qc_sum qs / Qc_of_nat (length qs)).
Proof.
  intros Hne. unfold mean_skipna. rewrite defined_Num. by destruct qs.
Qed.

Lemma rolling_mean_length (w : nat) (vs : list cell) :
  length (rolling_mean w vs) = length vs.
Proof. unfold rolling_mean. by rewrite length_fmap, length_seq. Qed.

Lemma window_Num (w i : nat) (qs : list Qc) :
  i < length qs →
  window w i (Num <$> qs) =
  Num <$> (if bool_decide (w ≤ S i) then take w (drop (S i - w) qs)
           else take (S i) qs).
Proof.
  intros Hi. unfold window. rewrite <- fmap_take, last_n_fmap. f_equal.
  unfold last_n. rewrite length_take_le by lia.
  case_bool_decide as Hw.
  - rewrite take_drop_commute. f_equal. f_equal. lia.
  - replace (S i - w) with 0 by lia. done.
Qed.

Lemma rolling_mean_Num (w i : nat) (qs : list Qc) :
  0 < w → i < length qs →
  rolling_mean w (Num <$> qs) !! i =
  Some (if bool_decide (w ≤ S i)
        then Num (Qc_sum (take w (drop (S i - w) qs)) / Qc_of_nat w)
        else NaN).
Proof.
  intros Hw Hi. unfold rolling_mean.
  rewrite list_lookup_fmap, lookup_seq_lt by (by rewrite length_fmap).
  simpl. rewrite window_Num by done. rewrite defined_Num. f_equal.
  destruct (decide (w ≤ S i)) as [Hle|Hle].
  - assert (length (take w (drop (S i - w) qs)) = w) as Hlen.
    { rewrite length_take_le; [done|]. rewrite length_drop. lia. }
    rewrite (bool_decide_eq_true_2 (w ≤ S i)) by done.
    rewrite bool_decide_eq_true_2 by lia.
    rewrite mean_skipna_Num, Hlen; [done|].
    intros Hnil. rewrite Hnil in Hlen. simpl in Hlen. lia.
  - rewrite (bool_decide_eq_false_2 (w ≤ S i)) by done.
    rewrite bool_decide_eq_false_2; [done|].
    rewrite length_take_le by lia. lia.
Qed.

(** ** C5: the moving average, region by region *)

Lemma smoothed_length (df : DataFrame) (col : list cell) :
  length (smoothed df col) = nrows df.
Proof. apply reindex_length. Qed.

(** Restricted to a region, the smoothed column is the moving average
    of the region's own series. *)
Lemma smoothed_region (df : DataFrame) (col : list cell) (k : string) :
  length col = nrows df →
  region_series df (smoothed df col) k =
  rolling_mean 7 (region_series df col k).
Proof.
  intros Hlen.
  apply (grouped_region (rolling_mean 7) (rolling_mean_length 7)
           (fips df) col Hlen k).
Qed.

Lemma defined_length (vs : list cell) : length (defined vs) ≤ length vs.
Proof.
  unfold defined. induction vs as [|v vs IH]; [done|].
  destruct v; simpl; [apply le_n_S, IH|apply Nat.le_le_succ_r, IH].
Qed.

Lemma window_length (w i : nat) (vs : list cell) :
  length (window w i vs) ≤ S i.
Proof.
  unfold window, last_n. rewrite length_drop, length_take. lia.
Qed.

Lemma rolling_mean_short (w i : nat) (vs : list cell) :
  i < length vs → S i < w → rolling_mean w vs !! i = Some NaN.
Proof.
  intros Hi Hw. unfold rolling_mean.
  rewrite list_lookup_fmap, lookup_seq_lt by done. simpl.
  rewrite bool_decide_eq_false_2; [done|].
  pose proof (defined_length (window w i vs)).
  pose proof (window_length w i vs). lia.
Qed.

(** ** The rows of a region, by row number *)

Lemma positions_from_sorted (mask : list bool) (i : nat) :
  StronglySorted lt (positions_from i mask).
Proof.
  revert i. induction mask as [|b mask IH]; intros i; simpl; [constructor|].
  destruct b; [|apply IH]. constructor; [apply IH|].
  apply Forall_forall. intros j Hj%elem_of_positions_from. lia.
Qed.

Lemma sorted_lt_NoDup (l : list nat) : StronglySorted lt l → NoDup l.
Proof.
  induction 1 as [|x l Hs IH Hall]; constructor; [|done].
  intros Hin. rewrite Forall_forall in Hall. specialize (Hall _ Hin). lia.
Qed.

Lemma sorted_lt_unique (l1 l2 : list nat) :
  StronglySorted lt l1 → StronglySorted lt l2 →
  (∀ x, x ∈ l1 ↔ x ∈ l2) → l1 = l2.
Proof.
  intros H1 H2 Hin.
  apply (StronglySorted_unique_strong lt); [intros; lia|done|done|].
  apply NoDup_Permutation; [by apply sorted_lt_NoDup..|done].
Qed.

(** An increasing list of row numbers that holds exactly the rows a mask
    selects is the list of labels of the selection. *)
Lemma rows_are_positions (mask : list bool) (idx : list nat) :
  StronglySorted lt idx →
  (∀ j, j ∈ idx ↔ mask !! j = Some true) →
  idx = positions mask.
Proof.
  intros Hs Hin. apply sorted_lt_unique; [done|apply positions_from_sorted|].
  intros j. rewrite Hin. unfold positions.
  rewrite elem_of_positions_from, Nat.sub_0_r. split; [|by intros [_ ?]].
  intros ?. split; [lia|done].
Qed.

Lemma tabulate_lookups (col : list cell) :
  (λ j, default NaN (col !! j)) <$> seq 0 (length col) = col.
Proof.
  apply list_eq. intros i. rewrite list_lookup_fmap.
  destruct (decide (i < length col)) as [Hlt|Hge].
  - rewrite lookup_seq_lt by done. simpl.
    destruct (lookup_lt_is_Some_2 col i Hlt) as [v ->]. done.
  - rewrite lookup_seq_ge by lia. symmetry. apply lookup_ge_None. lia.
Qed.

(** The [r]-th selected value is the value of the [r]-th selected row. *)
Lemma loc_values_lookup (mask : list bool) (col : list cell) (r j : nat) :
  length mask ≤ length col →
  positions mask !! r = Some j →
  (loc mask col).*2 !! r = col !! j.
Proof.
  intros Hlen Hr.
  assert (j < length col) as Hj.
  { apply list_elem_of_lookup_2, elem_of_positions_from in Hr as [_ Hm].
    apply lookup_lt_Some in Hm. lia. }
  unfold loc. rewrite <- (tabulate_lookups col) at 1.
  rewrite loc_from_tabulate by done.
  rewrite <- list_fmap_compose, list_lookup_fmap.
  fold (positions mask). rewrite Hr. simpl.
  destruct (lookup_lt_is_Some_2 col j Hj) as [v ->]. done.
Qed.

Lemma loc_values_length (mask : list bool) (col : list cell) :
  length mask ≤ length col →
  length (loc mask col).*2 = length (positions mask).
Proof. intros. rewrite length_fmap. by apply loc_from_length. Qed.

Lemma region_rows_mask (df : DataFrame) (k : string) (idx : list nat) :
  StronglySorted lt idx →
  (∀ j, j ∈ idx ↔ fips df !! j = Some (Some k)) →
  idx = positions (fips_eq df (Some k)).
Proof.
  intros Hs Hin. apply rows_are_positions; [done|].
  intros j. rewrite Hin.
  change (fips_eq df (Some k)) with (key_mask (fips df) (Some k)).
  rewrite key_mask_lookup_true. split.
  - intros ?. by exists k.
  - by intros (k' & [= <-] & ?).
Qed.

(** The value of the series of region [k] at position [r] is the value
    of the column on the [r]-th row of [k]. *)
Lemma region_series_lookup (df : DataFrame) (col : list cell) (k : string)
    (idx : list nat) (r j : nat) :
  StronglySorted lt idx →
  (∀ j, j ∈ idx ↔ fips df !! j = Some (Some k)) →
  length col = nrows df →
  idx !! r = Some j →
  region_series df col k !! r = col !! j.
Proof.
  intros Hs Hin Hlen Hr. unfold region_series.
  apply loc_values_lookup.
  - unfold fips_eq, nrows in *. rewrite length_fmap. lia.
  - by rewrite <- (region_rows_mask df k idx).
Qed.

Lemma region_series_length (df : DataFrame) (col : list cell) (k : string)
    (idx : list nat) :
  StronglySorted lt idx →
  (∀ j, j ∈ idx ↔ fips df !! j = Some (Some k)) →
  length col = nrows df →
  length (region_series df col k) = length idx.
Proof.
  intros Hs Hin Hlen. unfold region_series.
  rewrite loc_values_length, <- (region_rows_mask df k idx); [done..|].
  unfold fips_eq, nrows in *. rewrite length_fmap. lia.
Qed.

(** The moving average over seven known numbers. *)
Lemma rolling_mean_window (vs : list cell) (r : nat) (a : nat → Qc) :
  (∀ t, t < 7 → vs !! (r + t) = Some (Num (a t))) →
  rolling_mean 7 vs !! (r + 6) =
  Some (Num ((a 0 + a 1 + a 2 + a 3 + a 4 + a 5 + a 6) / Qc_of_Z 7)).
Proof.
  intros Ha.
  assert (r + 6 < length vs) as Hlen by (eapply lookup_lt_Some, Ha; lia).
  assert (window 7 (r + 6) vs = Num <$> (a <$> seq 0 7)) as Hwin.
  { unfold window, last_n. rewrite length_take_le by lia.
    replace (S (r + 6) - 7) with r by lia.
    apply list_eq. intros t. rewrite lookup_drop, !list_lookup_fmap.
    destruct (decide (t < 7)) as [Ht|Ht].
    - rewrite lookup_take_lt by lia. rewrite (Ha t Ht).
      by rewrite lookup_seq_lt.
    - rewrite lookup_take_ge by lia. by rewrite lookup_seq_ge by lia. }
  unfold rolling_mean.
  rewrite list_lookup_fmap, lookup_seq_lt by done. simpl.
  rewrite Hwin, defined_Num.
  rewrite bool_decide_eq_true_2 by (by rewrite length_fmap, length_seq).
  rewrite mean_skipna_Num by done. do 2 f_equal.
  rewrite length_fmap, length_seq. unfold Qcdiv. f_equal.
  unfold Qc_sum. simpl. ring.
Qed.

(** C5.  [idx] lists, in increasing order, the row numbers of region
    [k], wherever they lie in the table.  On a non-empty frame
    [add_sma_and_ratio] returns and stores a smoothed column of the
    length of the input column.  On each of the first six rows of [k]
    the smoothed value is NaN.  On the row of [k] at position [r + 6],
    when the column holds the numbers [a 0, ..., a 6] on the seven rows
    of [k] at positions [r, ..., r + 6], the smoothed value is
    [(a 0 + a 1 + a 2 + a 3 + a 4 + a 5 + a 6) / 7].  No row of another
    region is read. *)
Theorem smoothing_is_per_region_window_mean (impl : float_impl)
    (counties_FIPS : list string) (df : DataFrame) (c : string)
    (col : list cell) (k : string) (idx : list nat) :
  columns df !! c = Some col →
  length col = nrows df →
  0 < nrows df →
  StronglySorted lt idx →
  (∀ j, j ∈ idx ↔ fips df !! j = Some (Some k)) →
  ∃ df' ratios sma,
    add_sma_and_ratio impl counties_FIPS df c = Ok (df', ratios) ∧
    columns df' !! c = Some sma ∧
    length sma = length col ∧
    (∀ r j, r < 6 → idx !! r = Some j → sma !! j = Some NaN) ∧
    (∀ r (a : nat → Qc) j,
       (∀ t i, t < 7 → idx !! (r + t) = Some i →
               col !! i = Some (Num (a t))) →
       idx !! (r + 6) = Some j →
       sma !! j =
       Some (Num ((a 0 + a 1 + a 2 + a 3 + a 4 + a 5 + a 6) / Qc_of_Z 7))).
Proof.
  intros Hc Hlen Hn Hs Hin.
  assert (length (smoothed df col) = nrows df) as Hlen'
    by apply smoothed_length.
  eexists _, _, (smoothed df col). split_and!.
  - by apply add_sma_and_ratio_run.
  - simpl. apply lookup_insert_eq.
  - by rewrite smoothed_length.
  - intros r j Hr Hj.
    rewrite <- (region_series_lookup df _ k idx r j) by done.
    rewrite smoothed_region by done.
    apply rolling_mean_short; [|lia].
    rewrite (region_series_length df col k idx) by done.
    by eapply lookup_lt_Some.
  - intros r a j Ha Hj.
    rewrite <- (region_series_lookup df _ k idx (r + 6) j) by done.
    rewrite smoothed_region by done.
    apply rolling_mean_window. intros t Ht.
    destruct (lookup_lt_is_Some_2 idx (r + t)) as [i Hi].
    { apply lookup_lt_Some in Hj. lia. }
    rewrite (region_series_lookup df col k idx (r + t) i) by done.
    by apply Ha.
Qed.

(** ** C8 and C9: the [daily_cases] cell *)

Lemma diff_length (vs : list cell) : length (diff vs) = length vs.
Proof. unfold diff. rewrite length_zip_with. simpl. lia. Qed.

Lemma diff_lookup_0 (v : cell) (vs : list cell) :
  diff (v :: vs) !! 0 = Some NaN.
Proof. unfold diff. simpl. by destruct v. Qed.

Lemma diff_lookup_S (vs : list cell) (i : nat) (a b : cell) :
  vs !! i = Some a → vs !! S i = Some b →
  diff vs !! S i = Some (cell_sub b a).
Proof.
  intros Ha Hb. unfold diff. rewrite lookup_zip_with. simpl.
  by rewrite Hb, Ha.
Qed.

Lemma diff_Num (cs : list Qc) :
  fillna0 (diff (Num <$> cs)) = Num <$> first_difference cs.
Proof.
  destruct cs as [|c0 cs]; [done|].
  unfold diff, fillna0. simpl. f_equal.
  generalize c0. induction cs as [|c1 cs IH]; intros c; simpl; [done|].
  f_equal. apply IH.
Qed.

Lemma region_series_fmap (g : cell → cell) (df : DataFrame) (col : list cell)
    (k : string) :
  region_series df (g <$> col) k = g <$> region_series df col k.
Proof.
  unfold region_series, loc. rewrite loc_from_fmap.
  rewrite <- !list_fmap_compose. by apply list_fmap_ext; intros ? [? ?].
Qed.

(** The cell returns on every table read from the file, keeps the key
    and date columns, and adds the column [daily_cases]. *)
Lemma daily_cases_cell_run (rows : list csv_row) :
  daily_cases_cell (read_csv rows) =
  Ok (setitem_values (read_csv rows) "daily_cases"
        (fillna0 (reindex (length rows)
           (groupby_transform (read_csv rows) (row_cases <$> rows) diff)))).
Proof.
  unfold daily_cases_cell.
  rewrite (getitem_Ok _ _ (row_cases <$> rows)) by done.
  simpl. unfold nrows. simpl. by rewrite length_fmap.
Qed.

(** Restricted to a region, [daily_cases] is the difference series of the
    region's own cumulative counts, with the leading NaN filled by 0. *)
Lemma daily_cases_region (rows : list csv_row) (k : string) :
  region_series (read_csv rows)
    (fillna0 (reindex (length rows)
       (groupby_transform (read_csv rows) (row_cases <$> rows) diff))) k =
  fillna0 (diff (region_series (read_csv rows) (row_cases <$> rows) k)).
Proof.
  unfold fillna0 at 1. rewrite region_series_fmap. f_equal.
  pose proof (grouped_region diff diff_length (row_fips <$> rows)
                (row_cases <$> rows)) as Hg.
  rewrite !length_fmap in Hg. apply Hg. done.
Qed.

(** The incremental column holds no NaN: every region's incremental
    series is a sequence of numbers. *)
Lemma fillna0_defined (vs : list cell) : ∃ qs, fillna0 vs = Num <$> qs.
Proof.
  induction vs as [|v vs [qs IH]]; [by exists []|].
  unfold fillna0 in *. destruct v as [q|].
  - exists (q :: qs). simpl. by f_equal.
  - exists (Q2Qc 0 :: qs). simpl. by f_equal.
Qed.

Lemma daily_cases_defined (rows : list csv_row) (k : string) :
  ∃ df daily qs,
    daily_cases_cell (read_csv rows) = Ok df ∧
    columns df !! "daily_cases" = Some daily ∧
    length daily = nrows df ∧
    region_series df daily k = Num <$> qs.
Proof.
  destruct (fillna0_defined
    (diff (region_series (read_csv rows) (row_cases <$> rows) k)))
    as [qs Hqs].
  eexists _, _, qs. split; [apply daily_cases_cell_run|].
  split; [apply lookup_insert_eq|]. split.
  - unfold fillna0, nrows. simpl. by rewrite !length_fmap, reindex_length.
  - change (region_series (setitem_values (read_csv rows) "daily_cases" ?v))
      with (region_series (read_csv rows)).
    by rewrite daily_cases_region.
Qed.

(** C8.  [idx] lists, in increasing order, the row numbers of region
    [k], wherever they lie in the table.  The cell returns a frame whose
    [daily_cases] column has one entry per row; on the first row of [k]
    it is exactly 0, whatever the cumulative count of that row is; on
    every later row of [k] it is the cumulative count of that row minus
    the cumulative count of the previous row of [k], rows of other
    regions lying in between or not. *)
Theorem daily_cases_is_per_region_first_difference (rows : list csv_row)
    (k : string) (idx : list nat) :
  StronglySorted lt idx →
  (∀ j, j ∈ idx ↔ (row_fips <$> rows) !! j = Some (Some k)) →
  ∃ df daily,
    daily_cases_cell (read_csv rows) = Ok df ∧
    fips df = row_fips <$> rows ∧
    columns df !! "daily_cases" = Some daily ∧
    length daily = length rows ∧
    (∀ j, idx !! 0 = Some j → daily !! j = Some (Num (Q2Qc 0))) ∧
    (∀ r j j' a b,
       idx !! r = Some j → idx !! S r = Some j' →
       (row_cases <$> rows) !! j = Some (Num a) →
       (row_cases <$> rows) !! j' = Some (Num b) →
       daily !! j' = Some (Num (b - a))).
Proof.
  intros Hs Hin.
  set (daily := fillna0 (reindex (length rows)
    (groupby_transform (read_csv rows) (row_cases <$> rows) diff))).
  assert (length daily = length rows) as Hlen.
  { unfold daily, fillna0. by rewrite length_fmap, reindex_length. }
  assert (length daily = nrows (read_csv rows)) as Hlen1.
  { unfold nrows. simpl. by rewrite length_fmap. }
  assert (length (row_cases <$> rows) = nrows (read_csv rows)) as Hlen2.
  { unfold nrows. simpl. by rewrite !length_fmap. }
  pose proof (daily_cases_region rows k) as Hreg. fold daily in Hreg.
  exists (setitem_values (read_csv rows) "daily_cases" daily), daily.
  split; [apply daily_cases_cell_run|].
  split; [done|]. split; [apply lookup_insert_eq|]. split; [done|].
  split.
  - intros j Hj.
    rewrite <- (region_series_lookup (read_csv rows) daily k idx 0 j)
      by done.
    rewrite Hreg.
    pose proof (region_series_lookup (read_csv rows) (row_cases <$> rows)
                  k idx 0 j Hs Hin Hlen2 Hj) as Hc.
    destruct (region_series (read_csv rows) (row_cases <$> rows) k)
      as [|c0 cs].
    { simpl in Hc. symmetry in Hc. apply lookup_ge_None in Hc.
      apply list_elem_of_lookup_2, Hin, lookup_lt_Some in Hj.
      rewrite !length_fmap in *. lia. }
    unfold fillna0. by rewrite list_lookup_fmap, diff_lookup_0.
  - intros r j j' a b Hj Hj' Ha Hb.
    rewrite <- (region_series_lookup (read_csv rows) daily k idx (S r) j')
      by done.
    rewrite Hreg. unfold fillna0. rewrite list_lookup_fmap.
    rewrite (diff_lookup_S _ r (Num a) (Num b)); [done| |].
    + by rewrite (region_series_lookup _ _ k idx r j).
    + by rewrite (region_series_lookup _ _ k idx (S r) j').
Qed.

Lemma Qc_sum_first_difference (c0 : Qc) (cs : list Qc) (cn : Qc) :
  last (c0 :: cs) = Some cn →
  Qc_sum (first_difference (c0 :: cs)) = (cn - c0)%Qc.
Proof.
  simpl. revert c0. induction cs as [|c1 cs IH]; intros c0 Hlast.
  - simpl in *. simplify_eq. ring.
  - rewrite last_cons_cons in Hlast. specialize (IH c1 Hlast).
    simpl in *. rewrite Qcplus_0_l in IH. rewrite IH. ring.
Qed.

Lemma first_difference_nonneg (cs : list Qc) :
  Sorted Qclt cs → Forall (Qcle (Q2Qc 0)) (first_difference cs).
Proof.
  destruct cs as [|c0 cs]; [constructor|].
  intros Hs. simpl. constructor; [apply Qcle_refl|].
  revert c0 Hs. induction cs as [|c1 cs IH]; intros c0 Hs; [constructor|].
  apply Sorted_inv in Hs as [Hs Hhd]. apply HdRel_inv in Hhd.
  simpl. constructor; [|by apply IH].
  apply Qclt_le_weak. by apply Qclt_minus_iff in Hhd.
Qed.

(** C9.  When the cumulative counts of region [k] form a strictly
    increasing sequence [cs], the [daily_cases] values on the rows of [k]
    are numbers, all non-negative, and they sum to the last cumulative
    count minus the first one. *)
Theorem increasing_counts_give_nonnegative_telescoping_increments
    (rows : list csv_row) (k : string) (cs : list Qc) (c0 cn : Qc) :
  region_series (read_csv rows) (row_cases <$> rows) k = Num <$> cs →
  Sorted Qclt cs →
  head cs = Some c0 →
  last cs = Some cn →
  ∃ df daily ds,
    daily_cases_cell (read_csv rows) = Ok df ∧
    columns df !! "daily_cases" = Some daily ∧
    region_series df daily k = Num <$> ds ∧
    Forall (Qcle (Q2Qc 0)) ds ∧
    Qc_sum ds = (cn - c0)%Qc.
Proof.
  intros Hcs Hsorted Hhead Hlast.
  eexists _, _, (first_difference cs).
  split; [apply daily_cases_cell_run|].
  split; [apply lookup_insert_eq|].
  change (region_series (setitem_values (read_csv rows) "daily_cases" ?v))
    with (region_series (read_csv rows)).
  rewrite daily_cases_region, Hcs, diff_Num.
  split; [done|]. split; [by apply first_difference_nonneg|].
  destruct cs as [|c cs']; [done|]. simpl in Hhead. simplify_eq.
  by apply Qc_sum_first_difference.
Qed.

(** ** C2: the recalibration cell *)

Lemma np_where_lookup (cond : list bool) (x y : list cell) (i : nat)
    (b : bool) (u v : cell) :
  cond !! i = Some b → x !! i = Some u → y !! i = Some v →
  np_where cond x y !! i = Some (if b then u else v).
Proof.
  intros Hb Hu Hv. unfold np_where.
  rewrite lookup_zip_with, Hb. simpl.
  by rewrite lookup_zip_with, Hu, Hv.
Qed.

(** What one recalibration assignment computes when its source column
    exists: the source value times [a] before the threshold date and
    times [b] from the threshold date on. *)
Lemma recalibrate_scales (df : DataFrame) (target source : string) (a b : Qc)
    (col : list cell) :
  columns df !! source = Some col →
  ∃ df' out,
    recalibrate df target source a b = Ok df' ∧
    columns df' !! target = Some out ∧
    ∀ i t q, date df !! i = Some (Some t) → col !! i = Some (Num q) →
      out !! i =
      Some (Num (q * if bool_decide (t < recalibration_date)%Z then a else b)).
Proof.
  intros Hc. eexists _, _. unfold recalibrate.
  rewrite (getitem_Ok _ _ _ Hc). simpl.
  split; [done|]. split; [apply lookup_insert_eq|].
  intros i t q Ht Hq.
  rewrite (np_where_lookup _ _ _ i (ts_lt (Some t) recalibration_date)
             (Num (q * a)) (Num (q * b))).
  - simpl. by destruct (bool_decide (t < recalibration_date)%Z).
  - unfold date_lt. by rewrite list_lookup_fmap, Ht.
  - unfold scale. by rewrite list_lookup_fmap, Hq.
  - unfold scale. by rewrite list_lookup_fmap, Hq.
Qed.

(** C2.  The recalibration cell reads the column ['cases_new'], while the
    incremental column that the previous cell creates is ['daily_cases']:
    on every input table the cell raises [KeyError] and no recalibrated
    column is produced. *)
Theorem recalibration_cell_reads_a_missing_column (rows : list csv_row) :
  prepare rows = Raise (KeyError "cases_new").
Proof.
  unfold prepare. rewrite daily_cases_cell_run.
  unfold recalibration_cell, recalibrate, getitem. simpl.
  by rewrite lookup_insert_ne, lookup_insert_ne, lookup_insert_ne,
    lookup_empty.
Qed.

(** ** C4: rows with a missing key or date *)

Lemma fillna0_lookup_NaN (vs : list cell) (i : nat) :
  vs !! i = Some NaN → fillna0 vs !! i = Some (Num (Q2Qc 0)).
Proof. intros Hi. unfold fillna0. by rewrite list_lookup_fmap, Hi. Qed.

(** C4 as the code has it.  The ingestion cell returns on every input
    table: it keeps every row, with its key and date as read, missing or
    not; a row whose key is missing belongs to no region and gets the
    incremental value 0. *)
Theorem ingestion_keeps_incomplete_rows (rows : list csv_row) :
  ∃ df daily,
    daily_cases_cell (read_csv rows) = Ok df ∧
    fips df = row_fips <$> rows ∧
    date df = row_date <$> rows ∧
    columns df !! "daily_cases" = Some daily ∧
    length daily = length rows ∧
    ∀ i r, rows !! i = Some r → row_fips r = None →
      daily !! i = Some (Num (Q2Qc 0)).
Proof.
  eexists _, _. split; [apply daily_cases_cell_run|].
  split; [done|]. split; [done|]. split; [apply lookup_insert_eq|].
  split.
  - unfold fillna0. by rewrite length_fmap, reindex_length.
  - intros i r Hr Hnone. apply fillna0_lookup_NaN.
    rewrite reindex_lookup by (by eapply lookup_lt_Some).
    f_equal.
    apply (at_label_grouped_no_key diff diff_length (row_fips <$> rows)
             (row_cases <$> rows)).
    + by rewrite !length_fmap.
    + by rewrite list_lookup_fmap, Hr, <- Hnone.
Qed.

(** The table [incomplete_rows] is ingested whole: no error, four rows
    in, four rows out. *)
Lemma incomplete_rows_are_ingested :
  ∃ df,
    daily_cases_cell (read_csv incomplete_rows) = Ok df ∧
    fips df = [Some "01001"; None; Some "01001"; Some "01001"] ∧
    date df = [Some 20200901%Z; Some 20200901%Z; None; Some 20200903%Z] ∧
    columns df !! "daily_cases" =
      Some (Num <$> (Qc_of_Z <$> [0; 0; 2; 1]%Z)).
Proof.
  eexists. split; [apply daily_cases_cell_run|].
  split; [done|]. split; [done|]. vm_compute. reflexivity.
Qed.

(** ** Masks of the two windows *)

Lemma mask_and_lookup_true (m1 m2 : list bool) (i : nat) :
  mask_and m1 m2 !! i = Some true ↔
  m1 !! i = Some true ∧ m2 !! i = Some true.
Proof.
  unfold mask_and. rewrite lookup_zip_with_Some. split.
  - intros (x & y & Hxy & ? & ?). symmetry in Hxy.
    apply andb_true_iff in Hxy as [-> ->]. done.
  - intros [? ?]. by exists true, true.
Qed.

Lemma fips_eq_lookup_true (df : DataFrame) (k : string) (i : nat) :
  fips_eq df (Some k) !! i = Some true ↔ fips df !! i = Some (Some k).
Proof.
  change (fips_eq df (Some k)) with (key_mask (fips df) (Some k)).
  rewrite key_mask_lookup_true. split.
  - by intros (k' & [= <-] & ?).
  - intros ?. by exists k.
Qed.

Lemma date_lt_lookup_true (df : DataFrame) (d : Z) (i : nat) :
  date_lt df d !! i = Some true ↔
  ∃ t, date df !! i = Some (Some t) ∧ (t < d)%Z.
Proof.
  unfold date_lt. rewrite list_lookup_fmap.
  destruct (date df !! i) as [[t|]|]; simpl; split;
    try (intros (? & ? & ?)); try intros [= Hb]; simplify_eq.
  - apply bool_decide_eq_true in Hb. eauto.
  - f_equal. by apply bool_decide_eq_true.
Qed.

Lemma date_gt_lookup_true (df : DataFrame) (d : Z) (i : nat) :
  date_gt df d !! i = Some true ↔
  ∃ t, date df !! i = Some (Some t) ∧ (d < t)%Z.
Proof.
  unfold date_gt. rewrite list_lookup_fmap.
  destruct (date df !! i) as [[t|]|]; simpl; split;
    try (intros (? & ? & ?)); try intros [= Hb]; simplify_eq.
  - apply bool_decide_eq_true in Hb. eauto.
  - f_equal. by apply bool_decide_eq_true.
Qed.

Lemma elem_of_loc_values (mask : list bool) (col : list cell) (v : cell) :
  v ∈ (loc mask col).*2 ↔
  ∃ i, mask !! i = Some true ∧ col !! i = Some v.
Proof.
  rewrite list_elem_of_fmap. split.
  - intros ([j w] & -> & Hin). unfold loc in Hin.
    apply elem_of_loc_from in Hin as (_ & Hm & Hc).
    rewrite Nat.sub_0_r in Hm, Hc. eauto.
  - intros (i & Hm & Hc). exists (i, v). split; [done|].
    apply elem_of_loc_from. rewrite Nat.sub_0_r. split_and!; [lia|done..].
Qed.

(** The column is only read on the rows that the mask selects. *)
Lemma loc_from_ext (mask : list bool) (col col' : list cell) (i : nat) :
  length col = length col' →
  (∀ j, mask !! j = Some true → col !! j = col' !! j) →
  loc_from i mask col = loc_from i mask col'.
Proof.
  revert col col' i.
  induction mask as [|b mask IH]; intros [|v col] [|v' col'] i Hlen Hext;
    simplify_eq/=; try done.
  rewrite (IH col col' (S i)); [|done|intros j; apply (Hext (S j))].
  destruct b; [|done]. by specialize (Hext 0 eq_refl) as [= ->].
Qed.

(** ** C7: the peak *)

Lemma Qc_leb_le (x y : Qc) : Qc_leb x y = true ↔ (x ≤ y)%Qc.
Proof.
  unfold Qc_leb. rewrite Qcle_alt.
  destruct (x ?= y)%Qc; split; try done.
Qed.

Lemma Qc_max_spec (x y : Qc) :
  (x ≤ Qc_max x y)%Qc ∧ (y ≤ Qc_max x y)%Qc ∧
  (Qc_max x y = x ∨ Qc_max x y = y).
Proof.
  unfold Qc_max. destruct (Qc_leb x y) eqn:Hle.
  - apply Qc_leb_le in Hle. split_and!; [done|apply Qcle_refl|by right].
  - split_and!; [apply Qcle_refl| |by left].
    destruct (Qc_le_total x y) as [Hxy|Hyx]; [|done].
    apply Qc_leb_le in Hxy. congruence.
Qed.

Lemma foldl_Qc_max_spec (qs : list Qc) (q : Qc) :
  foldl Qc_max q qs ∈ q :: qs ∧
  ∀ x, x ∈ q :: qs → (x ≤ foldl Qc_max q qs)%Qc.
Proof.
  revert q. induction qs as [|y qs IH]; intros q; simpl.
  - split; [left|]. intros x ->%list_elem_of_singleton. apply Qcle_refl.
  - destruct (IH (Qc_max q y)) as [Hin Hub].
    destruct (Qc_max_spec q y) as (Hq & Hy & Hor).
    split.
    + apply elem_of_cons in Hin as [->|Hin]; [|by do 2 right].
      destruct Hor as [->| ->]; [left|right; left].
    + intros x Hx.
      assert (x ≤ Qc_max q y ∨ x ∈ qs)%Qc as [Hle|Hin'].
      { apply elem_of_cons in Hx as [->|Hx]; [by left|].
        apply elem_of_cons in Hx as [->|Hx]; [by left|by right]. }
      * eapply Qcle_trans; [done|]. apply Hub. left.
      * apply Hub. by right.
Qed.

Lemma elem_of_defined (vs : list cell) (q : Qc) :
  q ∈ defined vs ↔ Num q ∈ vs.
Proof.
  unfold defined. rewrite list_elem_of_omap. split.
  - intros ([q'|] & Hin & Hq); by simplify_eq.
  - intros Hin. by exists (Num q).
Qed.

(** [max] with [skipna]: the greatest number of the series, NaN when the
    series holds no number. *)
Lemma max_skipna_spec (vs : list cell) :
  (∀ m, max_skipna vs = Num m ↔
        Num m ∈ vs ∧ ∀ q, Num q ∈ vs → (q ≤ m)%Qc) ∧
  (max_skipna vs = NaN ↔ ∀ q, Num q ∉ vs).
Proof.
  unfold max_skipna.
  assert (∀ q, q ∈ defined vs ↔ Num q ∈ vs) as Hd
    by (intros; apply elem_of_defined).
  destruct (defined vs) as [|q0 qs].
  - split.
    + intros m. split; [done|]. intros [Hin _].
      apply Hd in Hin. by apply elem_of_nil in Hin.
    + split; [|done]. intros _ q Hin. apply Hd in Hin.
      by apply elem_of_nil in Hin.
  - destruct (foldl_Qc_max_spec qs q0) as [Hin Hub]. split.
    + intros m. split.
      * intros [= <-]. split; [by apply Hd|].
        intros q Hq. by apply Hub, Hd.
      * intros [Hm Hubm]. f_equal. apply Qcle_antisym.
        -- by apply Hubm, Hd.
        -- by apply Hub, Hd.
    + split; [done|]. intros Hno. exfalso. apply (Hno q0), Hd. left.
Qed.

(** C7.  The peak of region [k] is the greatest number among the values
    of the column on the rows of [k] dated strictly before
    [2020-10-01]; NaN entries are not candidates; and the peak is NaN
    exactly when no such row holds a number. *)
Theorem peak_is_max_of_defined_values_before_D1 (df : DataFrame)
    (col : list cell) (k : string) :
  (∀ m, county_prev_peak df col k = Num m ↔
     (∃ i t, row_of df col k i t (Num m) ∧ (t < D1)%Z) ∧
     (∀ i t q, row_of df col k i t (Num q) → (t < D1)%Z → (q ≤ m)%Qc)) ∧
  (county_prev_peak df col k = NaN ↔
     ∀ i t q, row_of df col k i t (Num q) → ¬ (t < D1)%Z).
Proof.
  assert (∀ v, v ∈ (loc (mask_and (fips_eq df (Some k)) (date_lt df D1))
                        col).*2 ↔
               ∃ i t, row_of df col k i t v ∧ (t < D1)%Z) as Hin.
  { intros v. rewrite elem_of_loc_values. unfold row_of. split.
    - intros (i & Hm & Hc).
      apply mask_and_lookup_true in Hm as [Hf Hd].
      apply fips_eq_lookup_true in Hf.
      apply date_lt_lookup_true in Hd as (t & Ht & Hlt). eauto 10.
    - intros (i & t & (Hf & Ht & Hc) & Hlt). exists i. split; [|done].
      apply mask_and_lookup_true. split.
      + by apply fips_eq_lookup_true.
      + apply date_lt_lookup_true. eauto. }
  unfold county_prev_peak.
  destruct (max_skipna_spec
    (loc (mask_and (fips_eq df (Some k)) (date_lt df D1)) col).*2)
    as [Hnum Hnan].
  split.
  - intros m. rewrite Hnum, Hin. split.
    + intros [Hex Hub]. split; [done|]. intros i t q Hrow Hlt.
      apply Hub, Hin. eauto.
    + intros [Hex Hub]. split; [done|]. intros q (i & t & ? & ?)%Hin.
      eauto.
  - rewrite Hnan. split.
    + intros Hno i t q Hrow Hlt. apply (Hno q), Hin. eauto.
    + intros Hno q (i & t & ? & ?)%Hin. by eapply Hno.
Qed.

(** ** C10: the row dated on the first cutoff *)

(** C10.  Whatever the column holds on a row dated exactly
    [2020-10-01], that value is read neither by the peak nor by the
    recent average, for every region: replacing it leaves both
    unchanged. *)
Theorem boundary_date_is_in_neither_window (df : DataFrame)
    (col : list cell) (k : string) (i : nat) (v : cell) :
  date df !! i = Some (Some D1) →
  county_prev_peak df (<[i := v]> col) k = county_prev_peak df col k ∧
  county_curr_ave df (<[i := v]> col) k = county_curr_ave df col k.
Proof.
  intros Hd. unfold county_prev_peak, county_curr_ave, loc. split.
  - rewrite (loc_from_ext _ (<[i := v]> col) col); [done| |].
    + by rewrite length_insert.
    + intros j [_ Hlt]%mask_and_lookup_true.
      apply date_lt_lookup_true in Hlt as (t & Ht & Hlt).
      apply list_lookup_insert_ne. intros ->. simplify_eq. lia.
  - rewrite (loc_from_ext _ (<[i := v]> col) col); [done| |].
    + by rewrite length_insert.
    + intros j [[_ Hgt]%mask_and_lookup_true _]%mask_and_lookup_true.
      apply date_gt_lookup_true in Hgt as (t & Ht & Hgt).
      apply list_lookup_insert_ne. intros ->. simplify_eq. lia.
Qed.

(** ** C6: the recent average *)

Lemma comparison_mask_values (fs : list (option string))
    (ds : list (option Z)) (col : list cell) (k : string) (i : nat) :
  (loc_from i
     (mask_and (mask_and ((λ f, key_eqb f (Some k)) <$> fs)
                         ((λ t, ts_gt t D1) <$> ds))
               ((λ t, ts_lt t D2) <$> ds)) col).*2 =
  (filter (λ x, D1 < x.1 < D2)%Z
     (omap (λ r, match r.1.1, r.1.2 with
                 | Some k', Some t =>
                     if bool_decide (k' = k) then Some (t, r.2) else None
                 | _, _ => None
                 end)
           (zip (zip fs ds) col))).*2.
Proof.
  revert ds col i.
  induction fs as [|f fs IH]; intros [|d ds] [|v col] i; try done.
  specialize (IH ds col (S i)).
  unfold mask_and in *. simpl.
  destruct f as [k'|], d as [t|]; simpl; try done.
  - destruct (decide (k' = k)) as [->|Hk].
    + rewrite (bool_decide_eq_true_2 (k = k)) by done. simpl.
      rewrite filter_cons. simpl.
      destruct (decide (D1 < t < D2)%Z) as [[H1 H2]|Hnot]; simpl.
      * rewrite (bool_decide_eq_true_2 (D1 < t)%Z) by done.
        rewrite (bool_decide_eq_true_2 (t < D2)%Z) by done.
        simpl. f_equal. apply IH.
      * destruct (decide (D1 < t)%Z).
        -- rewrite (bool_decide_eq_true_2 (D1 < t)%Z) by done.
           rewrite (bool_decide_eq_false_2 (t < D2)%Z) by lia. apply IH.
        -- rewrite (bool_decide_eq_false_2 (D1 < t)%Z) by done. apply IH.
    + rewrite (bool_decide_eq_false_2 (k' = k)) by done. apply IH.
  - rewrite andb_false_r. apply IH.
Qed.

Lemma insert_by_date_head (x : Z * cell) (l : list (Z * cell)) :
  Forall (λ y, x.1 ≤ y.1)%Z l → insert_by_date x l = x :: l.
Proof.
  destruct l as [|y l]; [done|]. intros [Hy _]%Forall_cons. simpl.
  by rewrite bool_decide_eq_true_2.
Qed.

(** Sorting leaves a chronological sequence as it is. *)
Lemma sort_by_date_sorted (l : list (Z * cell)) :
  StronglySorted (λ x y, x.1 ≤ y.1)%Z l → sort_by_date l = l.
Proof.
  induction 1 as [|x l Hs IH Hall]; [done|].
  unfold sort_by_date in *. simpl. rewrite IH.
  by apply insert_by_date_head.
Qed.

Lemma filter_dates_sorted (P : Z * cell → Prop) `{!∀ x, Decision (P x)}
    (l : list (Z * cell)) :
  Sorted Z.le l.*1 → StronglySorted (λ x y, x.1 ≤ y.1)%Z (filter P l).
Proof.
  intros Hs. apply (Sorted_StronglySorted _) in Hs.
  induction l as [|x l IH]; [constructor|].
  simpl in Hs. apply StronglySorted_inv in Hs as [Hs Hall].
  rewrite filter_cons. destruct (decide (P x)); [|by apply IH].
  constructor; [by apply IH|].
  rewrite Forall_forall in Hall.
  apply Forall_forall. intros y [_ Hy]%list_elem_of_filter.
  apply Hall, list_elem_of_fmap. eauto.
Qed.

(** The reading by dates.  When the dated observations of region [k]
    appear in the table in ascending date order, the recent average
    computed by the code is the mean of the defined values among the
    last seven entries of the date-sorted subsequence of the
    observations of [k] dated strictly between [2020-10-01] and
    [2021-02-06]: over fewer entries when the window holds fewer than
    seven, without the NaN entries, and NaN when no defined value is
    left. *)
Lemma recent_average_is_mean_of_last_seven_in_window (df : DataFrame)
    (col : list cell) (k : string) :
  Sorted Z.le (region_observations df col k).*1 →
  county_curr_ave df col k = recent_average_spec df col k.
Proof.
  intros Hs. unfold county_curr_ave, recent_average_spec, mean_skipna.
  rewrite (sort_by_date_sorted _ (filter_dates_sorted _ _ Hs)).
  rewrite <- !last_n_fmap.
  unfold loc, fips_eq, date_gt, date_lt.
  by rewrite comparison_mask_values.
Qed.


(** *** The recent average as the code computes it: in table order *)








(** ** C1: the ratio *)

Lemma is_zero_false (p : Qc) : p ≠ Q2Qc 0 → is_zero p = false.
Proof. intros Hp. unfold is_zero. by rewrite bool_decide_eq_false_2. Qed.

Lemma safe_div_Num (impl : float_impl) (a p : Qc) :
  p ≠ Q2Qc 0 → safe_div impl (Num a) (Num p) = RNum (a / p).
Proof. intros Hp. unfold safe_div, truediv. by rewrite is_zero_false. Qed.

Lemma safe_div_NaN_r (impl : float_impl) (x : cell) :
  safe_div impl x NaN = RNaN.
Proof. done. Qed.

Lemma safe_div_NaN_l (impl : float_impl) (p : Qc) :
  p ≠ Q2Qc 0 → safe_div impl NaN (Num p) = RNaN.
Proof. intros Hp. unfold safe_div, truediv. by rewrite is_zero_false. Qed.

(** On a zero divisor the result depends on the floats that are divided:
    the [except] branch is taken for Python floats only. *)
Lemma safe_div_zero_python (x : cell) :
  safe_div PythonFloat x (Num (Q2Qc 0)) = RNum (Q2Qc 0).
Proof. done. Qed.

Lemma safe_div_zero_numpy :
  safe_div NumpyFloat64 (Num (Q2Qc 0)) (Num (Q2Qc 0)) = RNaN ∧
  safe_div NumpyFloat64 NaN (Num (Q2Qc 0)) = RNaN ∧
  safe_div NumpyFloat64 (Num (Qc_of_Z 3)) (Num (Q2Qc 0)) = RInf false.
Proof. done. Qed.

(** C1 as the code has it.  On a non-empty frame with the column
    present, the call returns one ratio per county of the roster, without
    raising.  The ratio of county [k] is the recent average divided by
    the peak when both are numbers and the peak is not zero; it is NaN
    (not 0) when the peak is NaN, and when the recent average is NaN and
    the peak is a non-zero number. *)
Theorem ratio_is_quotient_and_NaN_propagates (impl : float_impl)
    (counties_FIPS : list string) (df : DataFrame) (c : string)
    (col : list cell) (i : nat) (k : string) :
  columns df !! c = Some col →
  0 < nrows df →
  counties_FIPS !! i = Some k →
  ∃ df' ratios sma r,
    add_sma_and_ratio impl counties_FIPS df c = Ok (df', ratios) ∧
    length ratios = length counties_FIPS ∧
    columns df' !! c = Some sma ∧
    ratios !! i = Some r ∧
    (∀ a p, county_curr_ave df' sma k = Num a →
            county_prev_peak df' sma k = Num p →
            p ≠ Q2Qc 0 → r = RNum (a / p)) ∧
    (county_prev_peak df' sma k = NaN → r = RNaN) ∧
    (∀ p, county_curr_ave df' sma k = NaN →
          county_prev_peak df' sma k = Num p →
          p ≠ Q2Qc 0 → r = RNaN).
Proof.
  intros Hc Hn Hk. eexists _, _, (smoothed df col), _.
  split; [by apply add_sma_and_ratio_run|].
  split; [by rewrite length_fmap|].
  split; [apply lookup_insert_eq|].
  split; [by rewrite list_lookup_fmap, Hk|].
  split_and!.
  - intros a p -> -> Hp. by apply safe_div_Num.
  - intros ->. apply safe_div_NaN_r.
  - intros p -> -> Hp. by apply safe_div_NaN_l.
Qed.

(** A county first reported after [2020-10-01] has no peak, and its
    ratio is NaN, whichever floats are divided. *)
Lemma undefined_peak_gives_undefined_ratio :
  ∃ df' sma,
    add_sma_and_ratio PythonFloat ["02013"] (frame_of late_county)
      "daily_cases" = Ok (df', [RNaN]) ∧
    add_sma_and_ratio NumpyFloat64 ["02013"] (frame_of late_county)
      "daily_cases" = Ok (df', [RNaN]) ∧
    columns df' !! "daily_cases" = Some sma ∧
    county_prev_peak df' sma "02013" = NaN.
Proof.
  eexists (setitem_values (frame_of late_county) "daily_cases" _), _.
  split_and!.
  - rewrite (add_sma_and_ratio_run _ _ _ _
               ((λ z, Num (Qc_of_Z z)) <$> [0; 5; 5; 5; 5; 5; 5; 5; 5]%Z));
      [|by vm_compute|vm_compute; lia].
    repeat f_equal.
  - rewrite (add_sma_and_ratio_run _ _ _ _
               ((λ z, Num (Qc_of_Z z)) <$> [0; 5; 5; 5; 5; 5; 5; 5; 5]%Z));
      [|by vm_compute|vm_compute; lia].
    repeat f_equal.
  - apply lookup_insert_eq.
  - by vm_compute.
Qed.

(** ** C3: the effect on the input frame *)

(** C3 as the code has it.  [add_sma_and_ratio] updates its input frame:
    the column [case_column] is overwritten with its per-region moving
    average, while the keys, the dates and every other column are left
    as they were.  A second call on the same frame therefore smooths the
    smoothed column once more. *)
Theorem add_sma_and_ratio_overwrites_its_column (impl : float_impl)
    (counties_FIPS : list string) (df : DataFrame) (c : string)
    (col : list cell) :
  columns df !! c = Some col →
  0 < nrows df →
  ∃ df' ratios df'' ratios',
    add_sma_and_ratio impl counties_FIPS df c = Ok (df', ratios) ∧
    fips df' = fips df ∧
    date df' = date df ∧
    (∀ c', c' ≠ c → columns df' !! c' = columns df !! c') ∧
    columns df' !! c = Some (smoothed df col) ∧
    add_sma_and_ratio impl counties_FIPS df' c = Ok (df'', ratios') ∧
    columns df'' !! c = Some (smoothed df (smoothed df col)).
Proof.
  intros Hc Hn.
  pose proof (add_sma_and_ratio_run impl counties_FIPS df c col Hc Hn) as Hrun.
  set (df' := setitem_values df c (smoothed df col)) in *.
  assert (columns df' !! c = Some (smoothed df col)) as Hc'
    by apply lookup_insert_eq.
  pose proof (add_sma_and_ratio_run impl counties_FIPS df' c _ Hc' Hn)
    as Hrun'.
  eexists _, _, _, _. split; [exact Hrun|].
  split; [done|]. split; [done|].
  split; [by intros c' Hne; apply lookup_insert_ne|].
  split; [done|]. split; [exact Hrun'|].
  simpl. by rewrite lookup_insert_eq.
Qed.

(** On [two_counties] the call changes the column it reads, and a second
    call on the updated frame returns other ratios. *)
Lemma second_call_returns_other_ratios :
  ∃ df' ratios df'' ratios',
    add_sma_and_ratio PythonFloat ["01001"; "53033"]
      (frame_of two_counties) "daily_cases" = Ok (df', ratios) ∧
    add_sma_and_ratio PythonFloat ["01001"; "53033"]
      df' "daily_cases" = Ok (df'', ratios') ∧
    columns df' !! "daily_cases" ≠
      columns (frame_of two_counties) !! "daily_cases" ∧
    ratios ≠ ratios'.
Proof.
  eexists _, _, _, _. split_and!.
  - apply (add_sma_and_ratio_run _ _ _ _ two_counties_daily);
      [by vm_compute|vm_compute; lia].
  - apply (add_sma_and_ratio_run _ _ _ _
             (smoothed (frame_of two_counties) two_counties_daily));
      [apply lookup_insert_eq|vm_compute; lia].
  - by vm_compute.
  - by vm_compute.
Qed.

(** ** The theorems at work on the sample tables *)

(** The ratio of county 53033 in [two_counties]. *)
Lemma ratio_of_county_53033 :
  ∃ df' ratios sma r,
    add_sma_and_ratio PythonFloat ["01001"; "53033"]
      (frame_of two_counties) "daily_cases" = Ok (df', ratios) ∧
    length ratios = length ["01001"; "53033"] ∧
    columns df' !! "daily_cases" = Some sma ∧
    ratios !! 1 = Some r ∧
    (∀ a p, county_curr_ave df' sma "53033" = Num a →
            county_prev_peak df' sma "53033" = Num p →
            p ≠ Q2Qc 0 → r = RNum (a / p)) ∧
    (county_prev_peak df' sma "53033" = NaN → r = RNaN) ∧
    (∀ p, county_curr_ave df' sma "53033" = NaN →
          county_prev_peak df' sma "53033" = Num p →
          p ≠ Q2Qc 0 → r = RNaN).
Proof.
  apply (ratio_is_quotient_and_NaN_propagates PythonFloat
           ["01001"; "53033"] (frame_of two_counties) "daily_cases"
           two_counties_daily 1 "53033").
  - vm_compute. reflexivity.
  - vm_compute. lia.
  - reflexivity.
Defined.

(** The effect of one call, and of a second one, on [two_counties]. *)
Lemma two_counties_column_is_overwritten :
  ∃ df' ratios df'' ratios',
    add_sma_and_ratio NumpyFloat64 ["01001"; "53033"]
      (frame_of two_counties) "daily_cases" = Ok (df', ratios) ∧
    fips df' = fips (frame_of two_counties) ∧
    date df' = date (frame_of two_counties) ∧
    (∀ c', c' ≠ "daily_cases" →
           columns df' !! c' = columns (frame_of two_counties) !! c') ∧
    columns df' !! "daily_cases" =
      Some (smoothed (frame_of two_counties) two_counties_daily) ∧
    add_sma_and_ratio NumpyFloat64 ["01001"; "53033"] df' "daily_cases" =
      Ok (df'', ratios') ∧
    columns df'' !! "daily_cases" =
      Some (smoothed (frame_of two_counties)
              (smoothed (frame_of two_counties) two_counties_daily)).
Proof.
  apply (add_sma_and_ratio_overwrites_its_column NumpyFloat64
           ["01001"; "53033"] (frame_of two_counties) "daily_cases"
           two_counties_daily).
  - vm_compute. reflexivity.
  - vm_compute. lia.
Defined.

Ltac in_rows := apply (bool_decide_unpack _); vm_compute; exact I.

(** The moving average of county 53033, whose rows alternate with those
    of county 01001: NaN on its sixth row (row 11), 60/7 on its seventh
    (row 13) and 61/7 on its tenth (row 19). *)
Lemma smoothing_of_county_53033 :
  ∃ df' ratios sma,
    add_sma_and_ratio PythonFloat ["01001"; "53033"]
      (frame_of two_counties) "daily_cases" = Ok (df', ratios) ∧
    columns df' !! "daily_cases" = Some sma ∧
    length sma = 36 ∧
    sma !! 11 = Some NaN ∧
    sma !! 13 = Some (Num (Q2Qc (60 # 7))) ∧
    sma !! 19 = Some (Num (Q2Qc (61 # 7))).
Proof.
  destruct (smoothing_is_per_region_window_mean PythonFloat
              ["01001"; "53033"] (frame_of two_counties) "daily_cases"
              two_counties_daily "53033" rows_of_53033)
    as (df' & ratios & sma & Hrun & Hc & Hlen & Hnan & Hmean).
  - vm_compute. reflexivity.
  - reflexivity.
  - vm_compute. lia.
  - in_rows.
  - intros j. split.
    + intros Hj.
      repeat (apply elem_of_cons in Hj as [->|Hj]; [reflexivity|]).
      by apply elem_of_nil in Hj.
    + intros Hj.
      do 36 (destruct j as [|j]; [first [in_rows|by vm_compute in Hj]|]).
      by vm_compute in Hj.
  - exists df', ratios, sma. split_and!; [done..| | |].
    + apply (Hnan 5 11); [lia|reflexivity].
    + rewrite (Hmean 0 (λ t, match t with 0 => Qc_of_Z 0 | _ => Qc_of_Z 10 end)
                 13).
      * do 2 f_equal; try (apply Qc_is_canon; reflexivity).
      * intros t i Ht Hi.
        do 7 (destruct t as [|t];
              [vm_compute in Hi; injection Hi as <-; reflexivity|]).
        lia.
      * reflexivity.
    + rewrite (Hmean 3 (λ t, match t with 6 => Qc_of_Z 1 | _ => Qc_of_Z 10 end)
                 19).
      * do 2 f_equal; try (apply Qc_is_canon; reflexivity).
      * intros t i Ht Hi.
        do 7 (destruct t as [|t];
              [vm_compute in Hi; injection Hi as <-; reflexivity|]).
        lia.
      * reflexivity.
Defined.

(** The increments of county 01001, whose rows alternate with those of
    county 53033: 0 on its first row, 4 - 1 on its second (row 2) and
    103 - 81 on its tenth (row 18). *)
Lemma increments_of_interleaved_counties :
  ∃ df daily,
    daily_cases_cell (read_csv two_counties) = Ok df ∧
    columns df !! "daily_cases" = Some daily ∧
    daily !! 0 = Some (Num (Q2Qc 0)) ∧
    daily !! 2 = Some (Num (Qc_of_Z 3)) ∧
    daily !! 18 = Some (Num (Qc_of_Z 22)).
Proof.
  destruct (daily_cases_is_per_region_first_difference two_counties
              "01001" rows_of_01001)
    as (df & daily & Hrun & _ & Hc & _ & Hfirst & Hnext).
  - in_rows.
  - intros j. split.
    + intros Hj.
      repeat (apply elem_of_cons in Hj as [->|Hj]; [reflexivity|]).
      by apply elem_of_nil in Hj.
    + intros Hj.
      do 36 (destruct j as [|j]; [first [in_rows|by vm_compute in Hj]|]).
      by vm_compute in Hj.
  - exists df, daily. split_and!; [done..| | |].
    + by apply Hfirst.
    + rewrite (Hnext 0 0 2 (Qc_of_Z 1) (Qc_of_Z 4)); [|reflexivity..].
      do 2 f_equal; try (apply Qc_is_canon; reflexivity).
    + rewrite (Hnext 8 16 18 (Qc_of_Z 81) (Qc_of_Z 103)); [|reflexivity..].
      do 2 f_equal; try (apply Qc_is_canon; reflexivity).
Defined.


(** The rows of county 53033 are in date order. *)
Lemma recent_average_of_county_53033 :
  county_curr_ave (frame_of two_counties) two_counties_daily "53033" =
  recent_average_spec (frame_of two_counties) two_counties_daily "53033".
Proof.
  apply (recent_average_is_mean_of_last_seven_in_window
           (frame_of two_counties) two_counties_daily "53033").
  apply (bool_decide_unpack _). vm_compute. exact I.
Defined.

(** The counts of county 01001 grow from 1 to 127. *)
Lemma increments_of_county_01001 :
  ∃ df daily ds,
    daily_cases_cell (read_csv two_counties) = Ok df ∧
    columns df !! "daily_cases" = Some daily ∧
    region_series df daily "01001" = Num <$> ds ∧
    Forall (Qcle (Q2Qc 0)) ds ∧
    Qc_sum ds = (Qc_of_Z 127 - Qc_of_Z 1)%Qc.
Proof.
  apply (increasing_counts_give_nonnegative_telescoping_increments
           two_counties "01001" county_01001_cases).
  - vm_compute. reflexivity.
  - apply (bool_decide_unpack _). vm_compute. exact I.
  - reflexivity.
  - reflexivity.
Defined.

(** The middle row of [boundary_rows] is dated [2020-10-01]. *)
Lemma value_on_20201001_is_not_read :
  county_prev_peak (frame_of boundary_rows)
    (<[1 := Num (Qc_of_Z 1000)]> (Num ∘ Qc_of_Z <$> [0; 4; 2]%Z)) "01001" =
  county_prev_peak (frame_of boundary_rows)
    (Num ∘ Qc_of_Z <$> [0; 4; 2]%Z) "01001" ∧
  county_curr_ave (frame_of boundary_rows)
    (<[1 := Num (Qc_of_Z 1000)]> (Num ∘ Qc_of_Z <$> [0; 4; 2]%Z)) "01001" =
  county_curr_ave (frame_of boundary_rows)
    (Num ∘ Qc_of_Z <$> [0; 4; 2]%Z) "01001".
Proof.
  apply (boundary_date_is_in_neither_window (frame_of boundary_rows)
           (Num ∘ Qc_of_Z <$> [0; 4; 2]%Z) "01001" 1 (Num (Qc_of_Z 1000))).
  reflexivity.
Defined.

(** * Further properties of the cells *)

(** ** [add_sma_and_ratio]: errors and rows outside every region *)

(** When the call raises.  A frame without rows makes [pd.concat] raise
    [ValueError], before the column is ever looked up; a frame with rows
    but without the column raises [KeyError] with the column's name; in
    every other case the call returns. *)
Theorem add_sma_and_ratio_raises (impl : float_impl)
    (counties_FIPS : list string) (df : DataFrame) (c : string) :
  (nrows df = 0 →
   add_sma_and_ratio impl counties_FIPS df c = Raise ValueError) ∧
  (0 < nrows df → columns df !! c = None →
   add_sma_and_ratio impl counties_FIPS df c = Raise (KeyError c)) ∧
  (0 < nrows df → is_Some (columns df !! c) →
   ∃ df' ratios,
     add_sma_and_ratio impl counties_FIPS df c = Ok (df', ratios) ∧
     length ratios = length counties_FIPS ∧ nrows df' = nrows df).
Proof.
  split_and!.
  - intros Hn. unfold add_sma_and_ratio, nrows in *.
    destruct (fips df); [done|]. simpl in Hn. lia.
  - intros Hn Hc. unfold add_sma_and_ratio.
    destruct (unique (fips df)) eqn:Hu.
    { apply unique_nil_inv in Hu. unfold nrows in Hn. rewrite Hu in Hn.
      simpl in Hn. lia. }
    unfold getitem. by rewrite Hc.
  - intros Hn [col Hc].
    eexists _, _. split; [by apply add_sma_and_ratio_run|].
    split; [by rewrite length_fmap|done].
Qed.

(** A row whose key is missing is in no county's group: after the call
    the column holds NaN on that row, whatever it held before. *)
Theorem smoothed_column_is_NaN_without_key (impl : float_impl)
    (counties_FIPS : list string) (df : DataFrame) (c : string)
    (col : list cell) (i : nat) :
  columns df !! c = Some col →
  length col = nrows df →
  fips df !! i = Some None →
  ∃ df' ratios sma,
    add_sma_and_ratio impl counties_FIPS df c = Ok (df', ratios) ∧
    columns df' !! c = Some sma ∧
    sma !! i = Some NaN.
Proof.
  intros Hc Hlen Hi.
  assert (i < nrows df) as Hlt by (by eapply lookup_lt_Some).
  eexists _, _, (smoothed df col).
  split; [apply add_sma_and_ratio_run; [done|lia]|].
  split; [apply lookup_insert_eq|].
  unfold smoothed. rewrite reindex_lookup by done. f_equal.
  by apply (at_label_grouped_no_key (rolling_mean 7) (rolling_mean_length 7)
              (fips df) col).
Qed.

(** ** Insufficient history *)

(** Whatever the column holds, NaN included, the first six rows of every
    region hold NaN after the call. *)
Theorem first_six_rows_of_a_region_are_NaN (impl : float_impl)
    (counties_FIPS : list string) (df : DataFrame) (c : string)
    (col : list cell) (k : string) (j : nat) :
  columns df !! c = Some col →
  length col = nrows df →
  j < length (region_series df col k) →
  j < 6 →
  ∃ df' ratios sma,
    add_sma_and_ratio impl counties_FIPS df c = Ok (df', ratios) ∧
    columns df' !! c = Some sma ∧
    region_series df' sma k !! j = Some NaN.
Proof.
  intros Hc Hlen Hj Hj6.
  assert (0 < nrows df) as Hn.
  { destruct (fips df) as [|f fs] eqn:Hf; [|unfold nrows; rewrite Hf; simpl; lia].
    unfold region_series, loc, fips_eq in Hj. rewrite Hf in Hj.
    simpl in Hj. lia. }
  eexists _, _, (smoothed df col).
  split; [by apply add_sma_and_ratio_run|].
  split; [apply lookup_insert_eq|].
  change (region_series df (smoothed df col) k !! j = Some NaN).
  rewrite smoothed_region by done. apply rolling_mean_short; [done|lia].
Qed.

Lemma elem_of_masked_region (df : DataFrame) (m : list bool)
    (col : list cell) (k : string) (v : cell) :
  v ∈ (loc (mask_and (fips_eq df (Some k)) m) col).*2 →
  v ∈ region_series df col k.
Proof.
  unfold region_series. rewrite !elem_of_loc_values.
  intros (i & [Hf _]%mask_and_lookup_true & Hv). eauto.
Qed.

Lemma elem_of_masked_region_3 (df : DataFrame) (m1 m2 : list bool)
    (col : list cell) (k : string) (v : cell) :
  v ∈ (loc (mask_and (mask_and (fips_eq df (Some k)) m1) m2) col).*2 →
  v ∈ region_series df col k.
Proof.
  unfold region_series. rewrite !elem_of_loc_values.
  intros (i & [[Hf _]%mask_and_lookup_true _]%mask_and_lookup_true & Hv).
  eauto.
Qed.

Lemma rolling_mean_too_short (w : nat) (vs : list cell) (v : cell) :
  length vs < w → v ∈ rolling_mean w vs → v = NaN.
Proof.
  intros Hw [i Hi]%list_elem_of_lookup.
  assert (i < length vs) as Hlt.
  { apply lookup_lt_Some in Hi. by rewrite rolling_mean_length in Hi. }
  rewrite rolling_mean_short in Hi by lia. by simplify_eq.
Qed.

(** A county with fewer than seven rows in the frame (none at all
    included) has no smoothed value: its peak is NaN and its ratio is
    NaN, not 0. *)
Theorem fewer_than_seven_rows_give_NaN (impl : float_impl)
    (counties_FIPS : list string) (df : DataFrame) (c : string)
    (col : list cell) (i : nat) (k : string) :
  columns df !! c = Some col →
  length col = nrows df →
  0 < nrows df →
  counties_FIPS !! i = Some k →
  length (region_series df col k) < 7 →
  ∃ df' ratios,
    add_sma_and_ratio impl counties_FIPS df c = Ok (df', ratios) ∧
    ratios !! i = Some RNaN.
Proof.
  intros Hc Hlen Hn Hk Hshort.
  eexists _, _. split; [by apply add_sma_and_ratio_run|].
  rewrite list_lookup_fmap, Hk. simpl. f_equal.
  set (df' := setitem_values df c (smoothed df col)).
  assert (county_prev_peak df' (smoothed df col) k = NaN) as ->;
    [|apply safe_div_NaN_r].
  unfold county_prev_peak.
  apply (max_skipna_spec _). intros q Hq.
  apply elem_of_masked_region in Hq.
  change (Num q ∈ region_series df (smoothed df col) k) in Hq.
  rewrite smoothed_region in Hq by done.
  by apply rolling_mean_too_short in Hq.
Qed.

(** ** Rows that neither window reads *)

(** A row whose date is missing, or is [2021-02-06] or later, is read
    neither by the peak nor by the recent average of any county: the
    second cutoff is exclusive, and a comparison with NaT is false. *)
Theorem undated_and_late_rows_are_not_read (df : DataFrame)
    (col : list cell) (k : string) (i : nat) (v : cell) :
  (date df !! i = Some None ∨
   ∃ t, date df !! i = Some (Some t) ∧ (D2 ≤ t)%Z) →
  county_prev_peak df (<[i := v]> col) k = county_prev_peak df col k ∧
  county_curr_ave df (<[i := v]> col) k = county_curr_ave df col k.
Proof.
  intros Hd. unfold county_prev_peak, county_curr_ave, loc. split.
  - rewrite (loc_from_ext _ (<[i := v]> col) col); [done| |].
    + by rewrite length_insert.
    + intros j [_ Hlt]%mask_and_lookup_true.
      apply date_lt_lookup_true in Hlt as (t & Ht & Hlt).
      apply list_lookup_insert_ne. intros ->.
      destruct Hd as [Hd|(t' & Hd & Hle)]; simplify_eq.
      unfold D1, D2 in *. lia.
  - rewrite (loc_from_ext _ (<[i := v]> col) col); [done| |].
    + by rewrite length_insert.
    + intros j [_ Hlt]%mask_and_lookup_true.
      apply date_lt_lookup_true in Hlt as (t & Ht & Hlt).
      apply list_lookup_insert_ne. intros ->.
      destruct Hd as [Hd|(t' & Hd & Hle)]; simplify_eq. lia.
Qed.

(** ** The ratio of a county reads that county's rows only *)

Lemma smoothed_lookup_region (df : DataFrame) (col : list cell) (k : string)
    (j : nat) :
  length col = nrows df →
  fips df !! j = Some (Some k) →
  smoothed df col !! j =
  Some (at_label (on_values (rolling_mean 7) (loc (fips_eq df (Some k)) col)) j).
Proof.
  intros Hlen Hj. unfold smoothed.
  rewrite reindex_lookup by (by eapply lookup_lt_Some). f_equal.
  apply (at_label_grouped (rolling_mean 7) (rolling_mean_length 7)
           (fips df) col Hlen).
  - apply elem_of_unique. by eapply list_elem_of_lookup_2.
  - unfold positions. apply elem_of_positions_from.
    rewrite Nat.sub_0_r. split; [lia|].
    apply key_mask_lookup_true. eauto.
Qed.

Lemma smoothed_local (df : DataFrame) (col col' : list cell) (k : string)
    (j : nat) :
  length col = nrows df → length col' = nrows df →
  (∀ i, fips df !! i = Some (Some k) → col !! i = col' !! i) →
  fips df !! j = Some (Some k) →
  smoothed df col !! j = smoothed df col' !! j.
Proof.
  intros Hlen Hlen' Hagree Hj.
  rewrite !(smoothed_lookup_region _ _ k) by done.
  unfold loc. rewrite (loc_from_ext _ col col'); [done|congruence|].
  intros i Hi. by apply Hagree, fips_eq_lookup_true.
Qed.

(** Two columns that agree on the rows of county [k] give county [k] the
    same ratio, however they differ on the rows of other counties and on
    rows without a key. *)
Theorem ratio_reads_own_rows_only (impl : float_impl)
    (counties_FIPS : list string) (df : DataFrame) (c : string)
    (col col' : list cell) (i : nat) (k : string) :
  columns df !! c = Some col →
  length col = nrows df →
  length col' = nrows df →
  0 < nrows df →
  counties_FIPS !! i = Some k →
  (∀ j, fips df !! j = Some (Some k) → col !! j = col' !! j) →
  ∃ df1 ratios1 df2 ratios2,
    add_sma_and_ratio impl counties_FIPS df c = Ok (df1, ratios1) ∧
    add_sma_and_ratio impl counties_FIPS (setitem_values df c col') c =
      Ok (df2, ratios2) ∧
    ratios1 !! i = ratios2 !! i.
Proof.
  intros Hc Hlen Hlen' Hn Hk Hagree.
  eexists _, _, _, _. split; [by apply add_sma_and_ratio_run|].
  split.
  { apply (add_sma_and_ratio_run _ _ _ _ col'); [apply lookup_insert_eq|done]. }
  rewrite !list_lookup_fmap, Hk. simpl. f_equal.
  change (smoothed (setitem_values df c col') col') with (smoothed df col').
  unfold county_curr_ave, county_prev_peak, loc. simpl.
  change (fips_eq (setitem_values ?d ?x ?y)) with (fips_eq df).
  change (date_lt (setitem_values ?d ?x ?y)) with (date_lt df).
  change (date_gt (setitem_values ?d ?x ?y)) with (date_gt df).
  rewrite (loc_from_ext (mask_and (fips_eq df (Some k)) (date_lt df D1))
             (smoothed df col) (smoothed df col')).
  - rewrite (loc_from_ext
               (mask_and (mask_and (fips_eq df (Some k)) (date_gt df D1))
                         (date_lt df D2))
               (smoothed df col) (smoothed df col')); [done| |].
    + by rewrite !smoothed_length.
    + intros j [[Hf _]%mask_and_lookup_true _]%mask_and_lookup_true.
      apply fips_eq_lookup_true in Hf. by apply (smoothed_local _ _ _ k).
  - by rewrite !smoothed_length.
  - intros j [Hf _]%mask_and_lookup_true.
    apply fips_eq_lookup_true in Hf. by apply (smoothed_local _ _ _ k).
Qed.

(** ** The [daily_cases] cell: what it adds and what it keeps *)

Lemma fillna0_elem (vs : list cell) (v : cell) :
  v ∈ fillna0 vs → ∃ q, v = Num q.
Proof.
  unfold fillna0. intros ([q|] & -> & _)%list_elem_of_fmap; eauto.
Qed.

(** The cell adds one column and changes nothing else: [cases] and
    [deaths] stay as read, and the new column has one entry per row and
    never holds NaN, also on rows without a key and on rows whose
    cumulative count is missing. *)
Theorem daily_cases_column_has_no_NaN (rows : list csv_row) :
  ∃ df daily,
    daily_cases_cell (read_csv rows) = Ok df ∧
    columns df !! "cases" = Some (row_cases <$> rows) ∧
    columns df !! "deaths" = Some (row_deaths <$> rows) ∧
    columns df !! "daily_cases" = Some daily ∧
    length daily = length rows ∧
    ∀ v, v ∈ daily → ∃ q, v = Num q.
Proof.
  eexists _, _. split; [apply daily_cases_cell_run|].
  split; [done|]. split; [done|]. split; [apply lookup_insert_eq|].
  split.
  - unfold fillna0. by rewrite length_fmap, reindex_length.
  - apply fillna0_elem.
Qed.

(** A missing cumulative count is not read as 0: the difference with it
    is NaN on both sides, so the increment is 0 on the row where the
    count is missing and again on the next row of the same region. *)
Theorem missing_count_gives_two_zero_increments (rows : list csv_row)
    (k : string) (i : nat) :
  region_series (read_csv rows) (row_cases <$> rows) k !! i = Some NaN →
  ∃ df daily,
    daily_cases_cell (read_csv rows) = Ok df ∧
    columns df !! "daily_cases" = Some daily ∧
    region_series df daily k !! i = Some (Num (Q2Qc 0)) ∧
    (S i < length (region_series df daily k) →
     region_series df daily k !! S i = Some (Num (Q2Qc 0))).
Proof.
  intros Hi. eexists _, _. split; [apply daily_cases_cell_run|].
  split; [apply lookup_insert_eq|].
  change (region_series (setitem_values (read_csv rows) "daily_cases" ?v))
    with (region_series (read_csv rows)).
  rewrite daily_cases_region.
  set (cs := region_series (read_csv rows) (row_cases <$> rows) k) in *.
  split.
  - apply fillna0_lookup_NaN. destruct i as [|j].
    + destruct cs as [|c0 cs']; [done|]. apply diff_lookup_0.
    + destruct (cs !! j) as [a|] eqn:Ha.
      * rewrite (diff_lookup_S _ _ _ _ Ha Hi). done.
      * apply lookup_ge_None in Ha. apply lookup_lt_Some in Hi. lia.
  - intros Hlt. unfold fillna0 in Hlt.
    rewrite length_fmap, diff_length in Hlt.
    destruct (lookup_lt_is_Some_2 cs (S i) Hlt) as [b Hb].
    apply fillna0_lookup_NaN. rewrite (diff_lookup_S _ _ _ _ Hi Hb).
    by destruct b.
Qed.

(** Running the cell again on its own result changes nothing: the
    increments are computed from [cases], which the cell does not touch. *)
Theorem daily_cases_cell_can_be_rerun (df0 df : DataFrame) :
  daily_cases_cell df0 = Ok df → daily_cases_cell df = Ok df.
Proof.
  unfold daily_cases_cell, getitem.
  destruct (columns df0 !! "cases") as [cases|] eqn:Hc; [|done].
  simpl. intros [= <-]. simpl.
  rewrite lookup_insert_ne, Hc by done. simpl.
  unfold setitem_values. simpl. by rewrite insert_insert_eq.
Qed.

(** Increments telescope whether or not the counts grow: for a region
    whose counts are all present they sum to the last count minus the
    first, and a count that falls gives a negative increment, which is
    kept as it is. *)
Theorem increments_telescope_and_keep_their_sign (rows : list csv_row)
    (k : string) (cs : list Qc) (c0 cn : Qc) :
  region_series (read_csv rows) (row_cases <$> rows) k = Num <$> cs →
  head cs = Some c0 →
  last cs = Some cn →
  ∃ df daily ds,
    daily_cases_cell (read_csv rows) = Ok df ∧
    columns df !! "daily_cases" = Some daily ∧
    region_series df daily k = Num <$> ds ∧
    Qc_sum ds = (cn - c0)%Qc ∧
    ∀ i a b d, cs !! i = Some a → cs !! S i = Some b → ds !! S i = Some d →
      d = (b - a)%Qc ∧ ((b < a)%Qc → (d < Q2Qc 0)%Qc).
Proof.
  intros Hcs Hhead Hlast.
  eexists _, _, (first_difference cs).
  split; [apply daily_cases_cell_run|].
  split; [apply lookup_insert_eq|].
  change (region_series (setitem_values (read_csv rows) "daily_cases" ?v))
    with (region_series (read_csv rows)).
  rewrite daily_cases_region, Hcs, diff_Num.
  split; [done|].
  destruct cs as [|c cs']; [done|]. simpl in Hhead. simplify_eq.
  split; [by apply Qc_sum_first_difference|].
  intros i a b d Ha Hb Hd. simpl in Hd.
  rewrite lookup_zip_with in Hd. simpl in Hb. rewrite Hb in Hd.
  rewrite Ha in Hd. simpl in Hd.
  assert (d = (b - a)%Qc) as -> by congruence.
  split; [done|]. intros Hlt.
  apply Qclt_minus_iff in Hlt. apply Qclt_minus_iff.
  replace (Q2Qc 0 + - (b - a))%Qc with (a + - b)%Qc by ring. done.
Qed.

(** ** The recalibration cell on a frame that has ['cases_new'] *)

Lemma recalibrate_run (df : DataFrame) (target source : string) (a b : Qc)
    (col : list cell) :
  columns df !! source = Some col →
  recalibrate df target source a b =
  Ok (setitem_values df target
        (np_where (date_lt df recalibration_date) (scale a col) (scale b col))).
Proof. intros Hc. unfold recalibrate. by rewrite (getitem_Ok _ _ _ Hc). Qed.

Lemma np_where_scale_lookup (df : DataFrame) (col : list cell) (a b : Qc)
    (i : nat) (d : option Z) (q : Qc) :
  date df !! i = Some d → col !! i = Some (Num q) →
  np_where (date_lt df recalibration_date) (scale a col) (scale b col) !! i =
  Some (Num (q * if ts_lt d recalibration_date then a else b)).
Proof.
  intros Hd Hq.
  rewrite (np_where_lookup _ _ _ i (ts_lt d recalibration_date)
             (Num (q * a)) (Num (q * b))).
  - by destruct (ts_lt d recalibration_date).
  - unfold date_lt. by rewrite list_lookup_fmap, Hd.
  - unfold scale. by rewrite list_lookup_fmap, Hq.
  - unfold scale. by rewrite list_lookup_fmap, Hq.
Qed.

(** When the frame does hold a column ['cases_new'], the cell returns
    and adds the three variants without touching any other column.  On a
    row dated before [2020-06-01] they are 4, 5.5 and 7 times the source
    value; on every other row, a row with a missing date included, all
    three are 2.1 times the source value, so the variants differ before
    the threshold date only. *)
Theorem recalibration_cell_on_cases_new (df : DataFrame) (src : list cell) :
  columns df !! "cases_new" = Some src →
  ∃ df' low med high,
    recalibration_cell df = Ok df' ∧
    fips df' = fips df ∧ date df' = date df ∧
    columns df' !! "daily_cases_low" = Some low ∧
    columns df' !! "daily_cases_med" = Some med ∧
    columns df' !! "daily_cases_high" = Some high ∧
    (∀ c, c ≠ "daily_cases_low" → c ≠ "daily_cases_med" →
          c ≠ "daily_cases_high" → columns df' !! c = columns df !! c) ∧
    ∀ i d q, date df !! i = Some d → src !! i = Some (Num q) →
      low !! i = Some (Num (q * if ts_lt d recalibration_date
                                then Qc_of_Z 4 else Q2Qc (21 # 10))) ∧
      med !! i = Some (Num (q * if ts_lt d recalibration_date
                                then Q2Qc (55 # 10) else Q2Qc (21 # 10))) ∧
      high !! i = Some (Num (q * if ts_lt d recalibration_date
                                 then Qc_of_Z 7 else Q2Qc (21 # 10))).
Proof.
  intros Hc. unfold recalibration_cell.
  rewrite (recalibrate_run _ _ _ _ _ src Hc). simpl.
  rewrite (recalibrate_run _ _ _ _ _ src)
    by (by simpl; rewrite lookup_insert_ne).
  simpl.
  rewrite (recalibrate_run _ _ _ _ _ src)
    by (by simpl; rewrite !lookup_insert_ne).
  eexists _, _, _, _. split; [done|]. split; [done|]. split; [done|].
  simpl. split.
  { rewrite lookup_insert_ne, lookup_insert_ne by done.
    apply lookup_insert_eq. }
  split.
  { rewrite lookup_insert_ne by done. apply lookup_insert_eq. }
  split; [apply lookup_insert_eq|]. split.
  { intros c H1 H2 H3. by rewrite !lookup_insert_ne. }
  intros i d q Hd Hq. split_and!; by apply np_where_scale_lookup.
Qed.

(** ** The [counties_df] cell *)

Lemma key_compare_antisym (x y : string * string * string) :
  key_compare x y = CompOpp (key_compare y x).
Proof.
  unfold key_compare.
  rewrite (String.compare_antisym x.1.1 y.1.1).
  destruct (String.compare y.1.1 x.1.1); simpl; try done.
  rewrite (String.compare_antisym x.1.2 y.1.2).
  destruct (String.compare y.1.2 x.1.2); simpl; try done.
  apply String.compare_antisym.
Qed.

#[global] Instance key_le_total : Total key_le.
Proof.
  intros x y. unfold key_le. rewrite (key_compare_antisym y x).
  destruct (key_compare x y); simpl; [by left|by left|by right].
Qed.

Lemma elem_of_counties_df_cell (lines : list csv_line)
    (x : string * string * string) :
  x ∈ counties_df_cell lines ↔ ∃ l, l ∈ lines ∧ group_key l = Some x.
Proof.
  unfold counties_df_cell.
  by rewrite merge_sort_Permutation, elem_of_remove_dups, list_elem_of_omap.
Qed.

Lemma group_key_Some (l : csv_line) (f c s : string) :
  group_key l = Some (f, c, s) ↔
  row_fips (line_row l) = Some f ∧ line_county l = Some c ∧
  line_state l = Some s.
Proof.
  unfold group_key.
  destruct (row_fips (line_row l)), (line_county l), (line_state l);
    split; try done; try (by intros (? & ? & ?)).
  - by intros [= -> -> ->].
  - by intros ([= ->] & [= ->] & [= ->]).
Qed.

(** [counties_df] has one row for each distinct triple (fips, county,
    state) found on a line where all three are present, in key order,
    and no other row: a line with a missing key or name adds nothing, and
    every county of the roster has at least one row in [covid_df]. *)
Theorem counties_df_lists_the_complete_keys (lines : list csv_line) :
  NoDup (counties_df_cell lines) ∧
  Sorted key_le (counties_df_cell lines) ∧
  (∀ f c s, (f, c, s) ∈ counties_df_cell lines ↔
     ∃ l, l ∈ lines ∧ row_fips (line_row l) = Some f ∧
          line_county l = Some c ∧ line_state l = Some s) ∧
  (∀ f, f ∈ FIPS (counties_frame (counties_df_cell lines)) →
     Some f ∈ fips (read_csv (line_row <$> lines))).
Proof.
  split_and!.
  - unfold counties_df_cell. rewrite merge_sort_Permutation.
    apply NoDup_remove_dups.
  - apply (Sorted_merge_sort _).
  - intros f c s. rewrite elem_of_counties_df_cell.
    by setoid_rewrite group_key_Some.
  - intros f. simpl. intros ([[f' c] s] & -> & Hin)%list_elem_of_fmap.
    apply elem_of_counties_df_cell in Hin as (l & Hl & Hk).
    apply group_key_Some in Hk as (Hf & _ & _). simpl.
    rewrite <- list_fmap_compose. apply list_elem_of_fmap. eauto.
Qed.

(** ** The ratio cell *)

Lemma remove_dups_length_NoDup {A : Type} `{EqDecision A} (l : list A) :
  length (remove_dups l) ≤ length l ∧
  (length (remove_dups l) = length l → NoDup l).
Proof.
  induction l as [|x l [IHle IHnd]]; simpl.
  { split; [done|]. constructor. }
  case_decide as Hx; simpl.
  - split; [lia|]. lia.
  - split; [lia|]. intros ?. constructor; [done|]. apply IHnd. lia.
Qed.

Lemma remove_dups_id {A : Type} `{EqDecision A} (l : list A) :
  NoDup l → remove_dups l = l.
Proof.
  induction 1 as [|x l Hx Hnd IH]; simpl; [done|].
  case_decide; [done|]. by f_equal.
Qed.

Lemma unique_id {A : Type} `{EqDecision A} (l : list A) :
  NoDup l → unique l = l.
Proof.
  intros Hnd. unfold unique. rewrite remove_dups_id.
  - apply reverse_involutive.
  - by rewrite reverse_Permutation.
Qed.

Lemma unique_length_NoDup {A : Type} `{EqDecision A} (l : list A) :
  length (unique l) = length l → NoDup l.
Proof.
  unfold unique. rewrite length_reverse. intros Hlen.
  rewrite <- (reverse_Permutation l).
  apply remove_dups_length_NoDup. by rewrite Hlen, length_reverse.
Qed.

Lemma add_sma_and_ratio_ratios (impl : float_impl) (roster : list string)
    (df : DataFrame) (c : string) (col : list cell) :
  columns df !! c = Some col → 0 < nrows df →
  add_sma_and_ratio impl roster df c =
  Ok (setitem_values df c (smoothed df col), ratios_on impl roster df col).
Proof. apply add_sma_and_ratio_run. Qed.

Lemma NoDup_fmap_same_image {A B : Type} (g : A → B) (l : list A) (x y : A) :
  NoDup (g <$> l) → x ∈ l → y ∈ l → g x = g y → x = y.
Proof.
  induction l as [|z l IH]; simpl; [by intros _ ?%elem_of_nil|].
  intros [Hz Hnd]%NoDup_cons Hx Hy Hg.
  apply elem_of_cons in Hx as [->|Hx]; apply elem_of_cons in Hy as [->|Hy].
  - done.
  - exfalso. apply Hz. rewrite Hg. by apply list_elem_of_fmap_2.
  - exfalso. apply Hz. rewrite <- Hg. by apply list_elem_of_fmap_2.
  - by apply IH.
Qed.

(** A county code that the file reports under two names has two rows in
    [counties_df] but one entry in the roster, so the list of ratios is
    shorter than the frame: the first assignment of the ratio cell raises
    [ValueError]. *)
Theorem county_under_two_names_breaks_the_ratio_cell (impl : float_impl)
    (lines : list csv_line) (covid_df : DataFrame) (col : list cell)
    (l1 l2 : csv_line) (f c1 s1 c2 s2 : string) :
  l1 ∈ lines → l2 ∈ lines →
  group_key l1 = Some (f, c1, s1) →
  group_key l2 = Some (f, c2, s2) →
  (c1, s1) ≠ (c2, s2) →
  columns covid_df !! "daily_cases" = Some col →
  0 < nrows covid_df →
  ratio_cell impl covid_df (counties_frame (counties_df_cell lines)) =
  Raise ValueError.
Proof.
  intros Hl1 Hl2 Hk1 Hk2 Hne Hc Hn.
  unfold ratio_cell, ratio_step at 4. simpl.
  rewrite (add_sma_and_ratio_ratios _ _ _ _ col) by done. simpl.
  unfold assign_list. simpl.
  rewrite decide_False; [done|].
  unfold ratios_on. rewrite length_fmap. intros Hlen.
  apply unique_length_NoDup in Hlen.
  assert ((f, c1, s1) = (f, c2, s2)) as Heq; [|congruence].
  apply (NoDup_fmap_same_image (λ x, x.1.1) (counties_df_cell lines));
    [done| | |done]; apply elem_of_counties_df_cell; eauto.
Qed.

Lemma ratio_step_run (impl : float_impl) (name c : string) (df : DataFrame)
    (cdf : CountiesFrame) (col : list cell) :
  NoDup (FIPS cdf) → columns df !! c = Some col → 0 < nrows df →
  ratio_step impl name c (df, cdf) =
  Ok (setitem_values df c (smoothed df col),
      mkCountiesFrame (FIPS cdf) (COUNTY cdf) (ST cdf)
        (<[name := ratios_on impl (FIPS cdf) df col]> (ratio_columns cdf))).
Proof.
  intros Hnd Hc Hn. unfold ratio_step. simpl.
  rewrite unique_id by done.
  rewrite (add_sma_and_ratio_ratios _ _ _ _ col) by done. simpl.
  unfold assign_list. rewrite decide_True; [done|].
  unfold ratios_on. by rewrite length_fmap.
Qed.

(** When no county code is listed twice and the four columns exist, the
    ratio cell returns, and its four calls do not disturb one another:
    each ratio column of [counties_df] is the list that a single call on
    the frame as it was before the cell returns for that column, entry
    [i] being the ratio of the county of row [i]; [covid_df] ends with
    its four columns smoothed and everything else unchanged. *)
Theorem ratio_cell_calls_do_not_interfere (impl : float_impl)
    (covid_df : DataFrame) (counties_df : CountiesFrame)
    (raw low med high : list cell) :
  NoDup (FIPS counties_df) →
  0 < nrows covid_df →
  columns covid_df !! "daily_cases" = Some raw →
  columns covid_df !! "daily_cases_low" = Some low →
  columns covid_df !! "daily_cases_med" = Some med →
  columns covid_df !! "daily_cases_high" = Some high →
  ∃ covid_df' counties_df',
    ratio_cell impl covid_df counties_df = Ok (covid_df', counties_df') ∧
    FIPS counties_df' = FIPS counties_df ∧
    (∀ name c col,
       (name, c, col) ∈
         [("Curr to Peak", "daily_cases", raw);
          ("Curr to Peak: Low Recalibration", "daily_cases_low", low);
          ("Curr to Peak: Med Recalibration", "daily_cases_med", med);
          ("Curr to Peak: High Recalibration", "daily_cases_high", high)] →
       ∃ df1 ratios,
         add_sma_and_ratio impl (FIPS counties_df) covid_df c =
           Ok (df1, ratios) ∧
         length ratios = length (FIPS counties_df) ∧
         ratio_columns counties_df' !! name = Some ratios ∧
         columns covid_df' !! c = Some (smoothed covid_df col)) ∧
    (∀ c, c ≠ "daily_cases" → c ≠ "daily_cases_low" →
          c ≠ "daily_cases_med" → c ≠ "daily_cases_high" →
          columns covid_df' !! c = columns covid_df !! c).
Proof.
  intros Hnd Hn Hraw Hlow Hmed Hhigh.
  unfold ratio_cell.
  rewrite (ratio_step_run _ _ _ _ _ raw) by done. simpl.
  rewrite (ratio_step_run _ _ _ _ _ low)
    by (try done; by simpl; rewrite lookup_insert_ne).
  simpl.
  rewrite (ratio_step_run _ _ _ _ _ med)
    by (try done; by simpl; rewrite !lookup_insert_ne).
  simpl.
  rewrite (ratio_step_run _ _ _ _ _ high)
    by (try done; by simpl; rewrite !lookup_insert_ne).
  eexists _, _. split; [done|]. split; [done|]. split.
  - intros name c col Hin.
    exists (setitem_values covid_df c (smoothed covid_df col)),
           (ratios_on impl (FIPS counties_df) covid_df col).
    repeat (apply elem_of_cons in Hin as [[= -> -> ->]|Hin]);
      [..|by apply elem_of_nil in Hin].
    all: split; [by apply add_sma_and_ratio_ratios|].
    all: split; [by unfold ratios_on; rewrite length_fmap|].
    all: simpl; rewrite ?lookup_insert_eq;
      repeat (rewrite lookup_insert_ne by done; rewrite ?lookup_insert_eq).
    all: done.
  - intros c H1 H2 H3 H4. simpl. by rewrite !lookup_insert_ne.
Qed.

Lemma add_sma_and_ratio_KeyError (impl : float_impl) (roster : list string)
    (df : DataFrame) (c : string) :
  0 < nrows df → columns df !! c = None →
  add_sma_and_ratio impl roster df c = Raise (KeyError c).
Proof.
  intros Hn Hc. unfold add_sma_and_ratio.
  destruct (unique (fips df)) eqn:Hu.
  { apply unique_nil_inv in Hu. unfold nrows in Hn. rewrite Hu in Hn.
    simpl in Hn. lia. }
  unfold getitem. by rewrite Hc.
Qed.

(** On the frame as the [daily_cases] cell leaves it, the ratio cell
    computes the first column of ratios and then stops: the three
    recalibrated columns do not exist, and the second call raises
    [KeyError]. *)
Theorem ratio_cell_needs_the_recalibrated_columns (impl : float_impl)
    (rows : list csv_row) (counties_df : CountiesFrame) :
  NoDup (FIPS counties_df) →
  0 < length rows →
  ∃ covid_df,
    daily_cases_cell (read_csv rows) = Ok covid_df ∧
    ratio_cell impl covid_df counties_df = Raise (KeyError "daily_cases_low").
Proof.
  intros Hnd Hn. eexists. split; [apply daily_cases_cell_run|].
  assert (0 < length (row_fips <$> rows)) as Hn' by (by rewrite length_fmap).
  unfold ratio_cell.
  erewrite ratio_step_run; [|done|apply lookup_insert_eq|done].
  simpl. unfold ratio_step. simpl.
  rewrite add_sma_and_ratio_KeyError; [done|done|].
  simpl. by rewrite !lookup_insert_ne.
Qed.

(** ** A county without a row in the comparison window *)

Lemma loc_values_nil (mask : list bool) (col : list cell) :
  (∀ i, mask !! i ≠ Some true) → (loc mask col).*2 = [].
Proof.
  intros Hno. destruct ((loc mask col).*2) as [|v vs] eqn:Hl; [done|].
  assert (v ∈ (loc mask col).*2) as Hin by (rewrite Hl; left).
  apply elem_of_loc_values in Hin as (i & Hi & _). by destruct (Hno i).
Qed.

(** A county that has no row dated strictly between the two cutoffs has
    no recent average.  Its ratio is then NaN, except that with Python
    floats a peak of exactly 0 turns it into 0. *)
Theorem no_recent_row_gives_NaN (impl : float_impl)
    (counties_FIPS : list string) (df : DataFrame) (c : string)
    (col : list cell) (i : nat) (k : string) :
  columns df !! c = Some col →
  0 < nrows df →
  counties_FIPS !! i = Some k →
  (∀ j t, fips df !! j = Some (Some k) → date df !! j = Some (Some t) →
          ¬ (D1 < t < D2)%Z) →
  ∃ df' ratios sma r,
    add_sma_and_ratio impl counties_FIPS df c = Ok (df', ratios) ∧
    columns df' !! c = Some sma ∧
    county_curr_ave df' sma k = NaN ∧
    ratios !! i = Some r ∧
    (r = RNaN ∨
     (impl = PythonFloat ∧ county_prev_peak df' sma k = Num (Q2Qc 0) ∧
      r = RNum (Q2Qc 0))).
Proof.
  intros Hc Hn Hk Hno.
  eexists _, _, (smoothed df col), _.
  split; [by apply add_sma_and_ratio_run|].
  split; [apply lookup_insert_eq|].
  assert (county_curr_ave (setitem_values df c (smoothed df col))
            (smoothed df col) k = NaN) as Have.
  { unfold county_curr_ave. rewrite <- last_n_fmap, loc_values_nil; [done|].
    intros j [[Hf Hgt]%mask_and_lookup_true Hlt]%mask_and_lookup_true.
    apply fips_eq_lookup_true in Hf.
    apply date_gt_lookup_true in Hgt as (t & Ht & Hgt).
    apply date_lt_lookup_true in Hlt as (t' & Ht' & Hlt).
    simpl in *. simplify_eq. by apply (Hno j t). }
  split; [done|].
  split; [by rewrite list_lookup_fmap, Hk|].
  rewrite Have. unfold safe_div, truediv.
  destruct (county_prev_peak (setitem_values df c (smoothed df col))
              (smoothed df col) k) as [p|]; [|by left].
  unfold is_zero. case_bool_decide as Hp; [|by left].
  destruct impl; [right; by subst|by left].
Qed.

(** ** The further properties on the sample tables *)

(** Row 1 of [incomplete_rows] has no key. *)
Lemma keyless_row_of_incomplete_rows :
  ∃ df' ratios sma,
    add_sma_and_ratio PythonFloat ["01001"] (frame_of incomplete_rows)
      "daily_cases" = Ok (df', ratios) ∧
    columns df' !! "daily_cases" = Some sma ∧
    sma !! 1 = Some NaN.
Proof.
  apply (smoothed_column_is_NaN_without_key PythonFloat ["01001"]
           (frame_of incomplete_rows) "daily_cases"
           (Num ∘ Qc_of_Z <$> [0; 0; 2; 1]%Z) 1).
  - vm_compute. reflexivity.
  - reflexivity.
  - reflexivity.
Defined.

(** The sixth row of county 53033. *)
Lemma sixth_row_of_county_53033 :
  ∃ df' ratios sma,
    add_sma_and_ratio PythonFloat ["01001"; "53033"]
      (frame_of two_counties) "daily_cases" = Ok (df', ratios) ∧
    columns df' !! "daily_cases" = Some sma ∧
    region_series df' sma "53033" !! 5 = Some NaN.
Proof.
  apply (first_six_rows_of_a_region_are_NaN PythonFloat ["01001"; "53033"]
           (frame_of two_counties) "daily_cases" two_counties_daily
           "53033" 5).
  - vm_compute. reflexivity.
  - reflexivity.
  - vm_compute. lia.
  - lia.
Defined.

(** The county of [boundary_rows] has three rows. *)
Lemma three_rows_give_NaN :
  ∃ df' ratios,
    add_sma_and_ratio NumpyFloat64 ["01001"] (frame_of boundary_rows)
      "daily_cases" = Ok (df', ratios) ∧
    ratios !! 0 = Some RNaN.
Proof.
  apply (fewer_than_seven_rows_give_NaN NumpyFloat64 ["01001"]
           (frame_of boundary_rows) "daily_cases"
           (Num ∘ Qc_of_Z <$> [0; 4; 2]%Z) 0 "01001").
  - vm_compute. reflexivity.
  - reflexivity.
  - vm_compute. lia.
  - reflexivity.
  - vm_compute. lia.
Defined.

(** Row 2 of [incomplete_rows] has no date. *)
Lemma undated_row_of_incomplete_rows :
  county_prev_peak (frame_of incomplete_rows)
    (<[2 := Num (Qc_of_Z 50)]> (Num ∘ Qc_of_Z <$> [0; 0; 2; 1]%Z)) "01001" =
  county_prev_peak (frame_of incomplete_rows)
    (Num ∘ Qc_of_Z <$> [0; 0; 2; 1]%Z) "01001" ∧
  county_curr_ave (frame_of incomplete_rows)
    (<[2 := Num (Qc_of_Z 50)]> (Num ∘ Qc_of_Z <$> [0; 0; 2; 1]%Z)) "01001" =
  county_curr_ave (frame_of incomplete_rows)
    (Num ∘ Qc_of_Z <$> [0; 0; 2; 1]%Z) "01001".
Proof.
  apply (undated_and_late_rows_are_not_read (frame_of incomplete_rows)
           (Num ∘ Qc_of_Z <$> [0; 0; 2; 1]%Z) "01001" 2 (Num (Qc_of_Z 50))).
  left. reflexivity.
Defined.

(** Changing the first row, which belongs to county 01001, does not
    change the ratio of county 53033. *)
Lemma county_53033_ignores_county_01001 :
  ∃ df1 ratios1 df2 ratios2,
    add_sma_and_ratio PythonFloat ["01001"; "53033"]
      (frame_of two_counties) "daily_cases" = Ok (df1, ratios1) ∧
    add_sma_and_ratio PythonFloat ["01001"; "53033"]
      (setitem_values (frame_of two_counties) "daily_cases"
         (<[0 := NaN]> two_counties_daily)) "daily_cases" =
      Ok (df2, ratios2) ∧
    ratios1 !! 1 = ratios2 !! 1.
Proof.
  apply (ratio_reads_own_rows_only PythonFloat ["01001"; "53033"]
           (frame_of two_counties) "daily_cases" two_counties_daily
           (<[0 := NaN]> two_counties_daily) 1 "53033").
  - vm_compute. reflexivity.
  - reflexivity.
  - reflexivity.
  - vm_compute. lia.
  - reflexivity.
  - intros j Hj. destruct j as [|j]; [vm_compute in Hj; discriminate|].
    reflexivity.
Defined.

(** The second count of [gap_rows] is missing. *)
Lemma increments_of_gap_rows :
  ∃ df daily,
    daily_cases_cell (read_csv gap_rows) = Ok df ∧
    columns df !! "daily_cases" = Some daily ∧
    region_series df daily "01001" !! 1 = Some (Num (Q2Qc 0)) ∧
    (2 < length (region_series df daily "01001") →
     region_series df daily "01001" !! 2 = Some (Num (Q2Qc 0))).
Proof.
  apply (missing_count_gives_two_zero_increments gap_rows "01001" 1).
  reflexivity.
Defined.

(** The cell run twice on [boundary_rows]. *)
Lemma boundary_rows_rerun :
  daily_cases_cell (frame_of boundary_rows) = Ok (frame_of boundary_rows).
Proof.
  apply (daily_cases_cell_can_be_rerun (read_csv boundary_rows)
           (frame_of boundary_rows)).
  reflexivity.
Defined.

(** The counts 5, 3, 8 of [corrected_rows]. *)
Lemma increments_of_corrected_rows :
  ∃ df daily ds,
    daily_cases_cell (read_csv corrected_rows) = Ok df ∧
    columns df !! "daily_cases" = Some daily ∧
    region_series df daily "01001" = Num <$> ds ∧
    Qc_sum ds = (Qc_of_Z 8 - Qc_of_Z 5)%Qc ∧
    ∀ i a b d, (Qc_of_Z <$> [5; 3; 8]%Z) !! i = Some a →
      (Qc_of_Z <$> [5; 3; 8]%Z) !! S i = Some b → ds !! S i = Some d →
      d = (b - a)%Qc ∧ ((b < a)%Qc → (d < Q2Qc 0)%Qc).
Proof.
  apply (increments_telescope_and_keep_their_sign corrected_rows "01001"
           (Qc_of_Z <$> [5; 3; 8]%Z)).
  - vm_compute. reflexivity.
  - reflexivity.
  - reflexivity.
Defined.

(** The recalibration cell on [with_cases_new]. *)
Lemma recalibration_of_with_cases_new :
  ∃ df' low med high,
    recalibration_cell with_cases_new = Ok df' ∧
    fips df' = fips with_cases_new ∧ date df' = date with_cases_new ∧
    columns df' !! "daily_cases_low" = Some low ∧
    columns df' !! "daily_cases_med" = Some med ∧
    columns df' !! "daily_cases_high" = Some high ∧
    (∀ c, c ≠ "daily_cases_low" → c ≠ "daily_cases_med" →
          c ≠ "daily_cases_high" →
          columns df' !! c = columns with_cases_new !! c) ∧
    ∀ i d q, date with_cases_new !! i = Some d →
      (Num ∘ Qc_of_Z <$> [0; 4; 2]%Z) !! i = Some (Num q) →
      low !! i = Some (Num (q * if ts_lt d recalibration_date
                                then Qc_of_Z 4 else Q2Qc (21 # 10))) ∧
      med !! i = Some (Num (q * if ts_lt d recalibration_date
                                then Q2Qc (55 # 10) else Q2Qc (21 # 10))) ∧
      high !! i = Some (Num (q * if ts_lt d recalibration_date
                                 then Qc_of_Z 7 else Q2Qc (21 # 10))).
Proof.
  apply (recalibration_cell_on_cases_new with_cases_new
           (Num ∘ Qc_of_Z <$> [0; 4; 2]%Z)).
  vm_compute. reflexivity.
Defined.

(** Code 02270 appears as Wade Hampton and as Kusilvak. *)
Lemma renamed_county_breaks_the_ratio_cell :
  ratio_cell PythonFloat (frame_of (line_row <$> renamed_county))
    (counties_frame (counties_df_cell renamed_county)) = Raise ValueError.
Proof.
  apply (county_under_two_names_breaks_the_ratio_cell PythonFloat
           renamed_county (frame_of (line_row <$> renamed_county))
           (Num ∘ Qc_of_Z <$> [0; 0; 2]%Z)
           (mkLine (obs 20200901 "02270" 3) (Some "Wade Hampton")
                   (Some "Alaska"))
           (mkLine (obs 20200902 "02270" 5) (Some "Kusilvak")
                   (Some "Alaska"))
           "02270" "Wade Hampton" "Alaska" "Kusilvak" "Alaska").
  - left.
  - right. right. left.
  - reflexivity.
  - reflexivity.
  - discriminate.
  - vm_compute. reflexivity.
  - vm_compute. lia.
Defined.

(** The ratio cell on [four_columns]. *)
Lemma ratio_cell_on_four_columns :
  ∃ covid_df' counties_df',
    ratio_cell NumpyFloat64 four_columns two_counties_names =
      Ok (covid_df', counties_df') ∧
    FIPS counties_df' = FIPS two_counties_names ∧
    (∀ name c col,
       (name, c, col) ∈
         [("Curr to Peak", "daily_cases", two_counties_daily);
          ("Curr to Peak: Low Recalibration", "daily_cases_low",
           scale (Qc_of_Z 4) two_counties_daily);
          ("Curr to Peak: Med Recalibration", "daily_cases_med",
           scale (Q2Qc (55 # 10)) two_counties_daily);
          ("Curr to Peak: High Recalibration", "daily_cases_high",
           scale (Qc_of_Z 7) two_counties_daily)] →
       ∃ df1 ratios,
         add_sma_and_ratio NumpyFloat64 (FIPS two_counties_names)
           four_columns c = Ok (df1, ratios) ∧
         length ratios = length (FIPS two_counties_names) ∧
         ratio_columns counties_df' !! name = Some ratios ∧
         columns covid_df' !! c = Some (smoothed four_columns col)) ∧
    (∀ c, c ≠ "daily_cases" → c ≠ "daily_cases_low" →
          c ≠ "daily_cases_med" → c ≠ "daily_cases_high" →
          columns covid_df' !! c = columns four_columns !! c).
Proof.
  apply (ratio_cell_calls_do_not_interfere NumpyFloat64 four_columns
           two_counties_names two_counties_daily
           (scale (Qc_of_Z 4) two_counties_daily)
           (scale (Q2Qc (55 # 10)) two_counties_daily)
           (scale (Qc_of_Z 7) two_counties_daily)).
  - apply (bool_decide_unpack _). vm_compute. exact I.
  - vm_compute. lia.
  - vm_compute. reflexivity.
  - vm_compute. reflexivity.
  - vm_compute. reflexivity.
  - vm_compute. reflexivity.
Defined.

(** The ratio cell right after the [daily_cases] cell. *)
Lemma ratio_cell_after_daily_cases_only :
  ∃ covid_df,
    daily_cases_cell (read_csv two_counties) = Ok covid_df ∧
    ratio_cell PythonFloat covid_df two_counties_names =
      Raise (KeyError "daily_cases_low").
Proof.
  apply (ratio_cell_needs_the_recalibrated_columns PythonFloat two_counties
           two_counties_names).
  - apply (bool_decide_unpack _). vm_compute. exact I.
  - vm_compute. lia.
Defined.

(** The dated rows of [incomplete_rows] are from September 2020. *)
Lemma county_without_recent_row :
  ∃ df' ratios sma r,
    add_sma_and_ratio PythonFloat ["01001"] (frame_of incomplete_rows)
      "daily_cases" = Ok (df', ratios) ∧
    columns df' !! "daily_cases" = Some sma ∧
    county_curr_ave df' sma "01001" = NaN ∧
    ratios !! 0 = Some r ∧
    (r = RNaN ∨
     (PythonFloat = PythonFloat ∧
      county_prev_peak df' sma "01001" = Num (Q2Qc 0) ∧
      r = RNum (Q2Qc 0))).
Proof.
  apply (no_recent_row_gives_NaN PythonFloat ["01001"]
           (frame_of incomplete_rows) "daily_cases"
           (Num ∘ Qc_of_Z <$> [0; 0; 2; 1]%Z) 0 "01001").
  - vm_compute. reflexivity.
  - vm_compute. lia.
  - reflexivity.
  - intros j t Hj Hd [H1 _]. unfold D1 in H1.
    do 4 (destruct j as [|j]; [vm_compute in Hd; simplify_eq; lia|]).
    vm_compute in Hd. discriminate.
Defined.
